(** * useGameView: the 3D game view composable

    A shallow embedding of [src/composables/useGameView.ts].

    The composable drives the babylonjs rendering library.  The library is not
    part of the repository, so its objects (engine, scene, camera, light,
    shadow generator, meshes, materials, textures) are modelled as records in
    an object store, addressed by the identity of the object, and its calls
    are recorded in a trace.  The functions of the composable are translated
    one by one into a state-and-exception monad over that store.

    JavaScript numbers are IEEE 754 binary64 values: they are modelled by
    Rocq's primitive floats, so that every arithmetic operation of the source
    rounds here exactly as it does in the browser. *)

From Stdlib Require Import ZArith List String Bool Lia Floats Uint63.
Import ListNotations.

Set Warnings "-inexact-float".
Local Open Scope string_scope.
Local Open Scope list_scope.

(** ** JavaScript numbers *)

Module JS.

Definition number := float.
Bind Scope float_scope with number.

(** A loop counter [i] (a small non-negative integer) used as a number. *)
Definition of_int (i : Z) : number := PrimFloat.of_uint63 (Uint63.of_Z i).

Definition Math_PI : number := 3.141592653589793%float.
Definition Math_sqrt (x : number) : number := PrimFloat.sqrt x.

(** Exceptions raised by the language itself. *)
Inductive exn :=
| TypeError (what : string).

End JS.
Import JS.

(** ** The object store of the rendering library *)

Definition uid := nat.
Bind Scope nat_scope with uid.

Record Vector3 := mkVector3 { v_x : number; v_y : number; v_z : number }.
Record Color3 := mkColor3 { c_r : number; c_g : number; c_b : number }.

Definition Vector3_Zero : Vector3 := mkVector3 0 0 0.

Record Engine := mkEngine {
  engine_uid : uid;
  engine_canvas : uid;
  engine_antialias : bool;
  engine_preserveDrawingBuffer : bool;
  engine_stencil : bool }.

Record Scene := mkScene {
  scene_uid : uid;
  scene_engine : uid }.

Record Camera := mkCamera {
  camera_uid : uid;
  camera_scene : uid;
  camera_name : string;
  camera_alpha : number;
  camera_beta : number;
  camera_radius : number;
  camera_target : Vector3;
  (** [Some (canvas, noPreventDefault)] once [attachControl] was called *)
  camera_attached : option (uid * bool) }.

Record Light := mkLight {
  light_uid : uid;
  light_scene : uid;
  light_name : string;
  light_direction : Vector3;
  light_position : Vector3 }.

Record ShadowGenerator := mkShadowGenerator {
  sg_uid : uid;
  sg_mapSize : number;
  sg_light : uid;
  (** the shadow casters, in the order they were registered *)
  sg_renderList : list uid }.

Inductive Geometry :=
| Cylinder (diameter tessellation height : number)
| Box (size : number)
| GroundFromHeightMap (url : string)
    (width height subdivisions maxHeight minHeight : number).

Record Mesh := mkMesh {
  mesh_uid : uid;
  mesh_scene : uid;
  mesh_name : string;
  mesh_geometry : Geometry;
  mesh_position : Vector3;
  mesh_receiveShadows : bool;
  mesh_material : option uid }.

Inductive TextureSource :=
| ImageTexture (url : string)
| CubeTexture (rootUrl : string).

Record Texture := mkTexture {
  texture_uid : uid;
  texture_scene : uid;
  texture_source : TextureSource;
  texture_coordinatesMode : Z }.

Record Material := mkMaterial {
  material_uid : uid;
  material_scene : uid;
  material_name : string;
  material_backFaceCulling : bool;
  material_diffuseTexture : option uid;
  material_reflectionTexture : option uid;
  material_diffuseColor : Color3;
  material_specularColor : Color3;
  material_emissiveColor : Color3;
  material_ambientColor : Color3 }.

(** Closures handed to the host, defunctionalised: the render-loop body
    [function () { scene.render(); }] and the resize listener
    [function () { engine.resize(); }], each with the variable it captures. *)
Inductive Callback :=
| RenderScene (scene : uid)
| ResizeEngine (engine : uid).

(** Calls into the rendering library and the host, in the order they happen. *)
Inductive Call :=
| NewEngine (e canvas : uid)
| NewScene (s e : uid)
| NewArcRotateCamera (c s : uid)
| CameraSetTarget (c : uid)
| CameraAttachControl (c canvas : uid)
| NewDirectionalLight (l s : uid)
| NewShadowGenerator (g : uid) (mapSize : number) (l : uid)
| NewStandardMaterial (m s : uid)
| NewTexture (t s : uid)
| NewCubeTexture (t s : uid)
| CreateGroundFromHeightMap (m s : uid)
| CreateBox (m s : uid)
| CreateCylinder (m s : uid)
| AddShadowCaster (g m : uid)
| RunRenderLoop (e : uid)
| AddResizeListener
| SceneRender (s : uid)
| EngineResize (e : uid).

Record World := mkWorld {
  next_uid : uid;
  engines : list Engine;
  scenes : list Scene;
  cameras : list Camera;
  lights : list Light;
  shadowGenerators : list ShadowGenerator;
  meshes : list Mesh;
  materials : list Material;
  textures : list Texture;
  (** [let shadowGenerator: BABYLON.ShadowGenerator;] of the composable:
      [None] is JavaScript's [undefined] *)
  shadowGenerator : option uid;
  (** the results of the successive calls of [Math.random()] *)
  random_source : nat -> number;
  random_draws : nat;
  (** [engine.runRenderLoop] registrations and the window's resize listeners *)
  renderLoops : list (uid * Callback);
  resizeListeners : list Callback;
  trace : list Call }.

(** The world the composable starts in: nothing allocated, nothing registered,
    [shadowGenerator] declared and not assigned. *)
Definition empty_world (rnd : nat -> number) : World :=
  mkWorld 0 [] [] [] [] [] [] [] [] None rnd 0 [] [] [].

(** Field updates of the world. *)
Definition set_next_uid (n : uid) (w : World) : World :=
  mkWorld n (engines w) (scenes w) (cameras w) (lights w) (shadowGenerators w)
    (meshes w) (materials w) (textures w) (shadowGenerator w)
    (random_source w) (random_draws w) (renderLoops w) (resizeListeners w) (trace w).
Definition set_engines (l : list Engine) (w : World) : World :=
  mkWorld (next_uid w) l (scenes w) (cameras w) (lights w) (shadowGenerators w)
    (meshes w) (materials w) (textures w) (shadowGenerator w)
    (random_source w) (random_draws w) (renderLoops w) (resizeListeners w) (trace w).
Definition set_scenes (l : list Scene) (w : World) : World :=
  mkWorld (next_uid w) (engines w) l (cameras w) (lights w) (shadowGenerators w)
    (meshes w) (materials w) (textures w) (shadowGenerator w)
    (random_source w) (random_draws w) (renderLoops w) (resizeListeners w) (trace w).
Definition set_cameras (l : list Camera) (w : World) : World :=
  mkWorld (next_uid w) (engines w) (scenes w) l (lights w) (shadowGenerators w)
    (meshes w) (materials w) (textures w) (shadowGenerator w)
    (random_source w) (random_draws w) (renderLoops w) (resizeListeners w) (trace w).
Definition set_lights (l : list Light) (w : World) : World :=
  mkWorld (next_uid w) (engines w) (scenes w) (cameras w) l (shadowGenerators w)
    (meshes w) (materials w) (textures w) (shadowGenerator w)
    (random_source w) (random_draws w) (renderLoops w) (resizeListeners w) (trace w).
Definition set_shadowGenerators (l : list ShadowGenerator) (w : World) : World :=
  mkWorld (next_uid w) (engines w) (scenes w) (cameras w) (lights w) l
    (meshes w) (materials w) (textures w) (shadowGenerator w)
    (random_source w) (random_draws w) (renderLoops w) (resizeListeners w) (trace w).
Definition set_meshes (l : list Mesh) (w : World) : World :=
  mkWorld (next_uid w) (engines w) (scenes w) (cameras w) (lights w) (shadowGenerators w)
    l (materials w) (textures w) (shadowGenerator w)
    (random_source w) (random_draws w) (renderLoops w) (resizeListeners w) (trace w).
Definition set_materials (l : list Material) (w : World) : World :=
  mkWorld (next_uid w) (engines w) (scenes w) (cameras w) (lights w) (shadowGenerators w)
    (meshes w) l (textures w) (shadowGenerator w)
    (random_source w) (random_draws w) (renderLoops w) (resizeListeners w) (trace w).
Definition set_textures (l : list Texture) (w : World) : World :=
  mkWorld (next_uid w) (engines w) (scenes w) (cameras w) (lights w) (shadowGenerators w)
    (meshes w) (materials w) l (shadowGenerator w)
    (random_source w) (random_draws w) (renderLoops w) (resizeListeners w) (trace w).
Definition set_shadowGenerator (g : option uid) (w : World) : World :=
  mkWorld (next_uid w) (engines w) (scenes w) (cameras w) (lights w) (shadowGenerators w)
    (meshes w) (materials w) (textures w) g
    (random_source w) (random_draws w) (renderLoops w) (resizeListeners w) (trace w).
Definition set_random_draws (n : nat) (w : World) : World :=
  mkWorld (next_uid w) (engines w) (scenes w) (cameras w) (lights w) (shadowGenerators w)
    (meshes w) (materials w) (textures w) (shadowGenerator w)
    (random_source w) n (renderLoops w) (resizeListeners w) (trace w).
Definition set_renderLoops (l : list (uid * Callback)) (w : World) : World :=
  mkWorld (next_uid w) (engines w) (scenes w) (cameras w) (lights w) (shadowGenerators w)
    (meshes w) (materials w) (textures w) (shadowGenerator w)
    (random_source w) (random_draws w) l (resizeListeners w) (trace w).
Definition set_resizeListeners (l : list Callback) (w : World) : World :=
  mkWorld (next_uid w) (engines w) (scenes w) (cameras w) (lights w) (shadowGenerators w)
    (meshes w) (materials w) (textures w) (shadowGenerator w)
    (random_source w) (random_draws w) (renderLoops w) l (trace w).
Definition set_trace (l : list Call) (w : World) : World :=
  mkWorld (next_uid w) (engines w) (scenes w) (cameras w) (lights w) (shadowGenerators w)
    (meshes w) (materials w) (textures w) (shadowGenerator w)
    (random_source w) (random_draws w) (renderLoops w) (resizeListeners w) l.

(** ** Computations: state, and exceptions that keep the state

    A JavaScript exception does not undo the writes made before it, so a
    computation always returns the world it reached. *)

Inductive completion (A : Type) :=
| Normal (a : A)
| Throw (e : exn).
Arguments Normal {A} a.
Arguments Throw {A} e.

Definition M (A : Type) : Type := World -> completion A * World.

Definition ret {A} (a : A) : M A := fun w => (Normal a, w).
Definition throw {A} (e : exn) : M A := fun w => (Throw e, w).
Definition bind {A B} (c : M A) (k : A -> M B) : M B :=
  fun w =>
    match c w with
    | (Normal a, w') => k a w'
    | (Throw e, w') => (Throw e, w')
    end.
Definition modify (f : World -> World) : M unit := fun w => (Normal tt, f w).

Declare Scope js_scope.
Delimit Scope js_scope with js.
Notation "x <- c ;; k" := (bind c (fun x => k))
  (at level 61, c at next level, right associativity) : js_scope.
Notation "c ;; k" := (bind c (fun _ => k))
  (at level 61, right associativity) : js_scope.
Local Open Scope js_scope.

(** A fresh object identity. *)
Definition fresh : M uid :=
  fun w => (Normal (next_uid w), set_next_uid (S (next_uid w)) w).

Definition call (c : Call) : M unit :=
  modify (fun w => set_trace (trace w ++ [c]) w).

(** A write through a reference: every holder of the reference sees it. *)
Definition update {A} (id_of : A -> uid) (u : uid) (f : A -> A) (l : list A) : list A :=
  map (fun o => if Nat.eqb (id_of o) u then f o else o) l.

(** [Math.random()]: the next draw of the host's source. *)
Definition Math_random : M number :=
  fun w => (Normal (random_source w (random_draws w)),
            set_random_draws (S (random_draws w)) w).

(** ** The rendering library, as far as the composable uses it

    Constructors allocate an object with the library's default fields, add it
    to the store and return its identity; property writes go through
    [update]. *)

Module BABYLON.

Definition Texture_SKYBOX_MODE : Z := 5%Z.
Definition Texture_EXPLICIT_MODE : Z := 0%Z.
Definition Texture_CUBIC_MODE : Z := 3%Z.

Definition white : Color3 := mkColor3 1 1 1.
Definition black : Color3 := mkColor3 0 0 0.

Definition new_Engine (canvas : uid) (antialias preserveDrawingBuffer stencil : bool)
  : M uid :=
  e <- fresh ;;
  modify (fun w => set_engines
    (engines w ++ [mkEngine e canvas antialias preserveDrawingBuffer stencil]) w) ;;
  call (NewEngine e canvas) ;;
  ret e.

Definition new_Scene (engine : uid) : M uid :=
  s <- fresh ;;
  modify (fun w => set_scenes (scenes w ++ [mkScene s engine]) w) ;;
  call (NewScene s engine) ;;
  ret s.

Definition new_ArcRotateCamera (name : string) (alpha beta radius : number)
    (target : Vector3) (scene : uid) : M uid :=
  c <- fresh ;;
  modify (fun w => set_cameras
    (cameras w ++ [mkCamera c scene name alpha beta radius target None]) w) ;;
  call (NewArcRotateCamera c scene) ;;
  ret c.

Definition Camera_setTarget (c : uid) (target : Vector3) : M unit :=
  modify (fun w => set_cameras (update camera_uid c
    (fun o => mkCamera (camera_uid o) (camera_scene o) (camera_name o) (camera_alpha o)
                (camera_beta o) (camera_radius o) target (camera_attached o))
    (cameras w)) w) ;;
  call (CameraSetTarget c).

Definition Camera_attachControl (c canvas : uid) (noPreventDefault : bool) : M unit :=
  modify (fun w => set_cameras (update camera_uid c
    (fun o => mkCamera (camera_uid o) (camera_scene o) (camera_name o) (camera_alpha o)
                (camera_beta o) (camera_radius o) (camera_target o)
                (Some (canvas, noPreventDefault)))
    (cameras w)) w) ;;
  call (CameraAttachControl c canvas).

Definition new_DirectionalLight (name : string) (direction : Vector3) (scene : uid)
  : M uid :=
  l <- fresh ;;
  modify (fun w => set_lights
    (lights w ++ [mkLight l scene name direction Vector3_Zero]) w) ;;
  call (NewDirectionalLight l scene) ;;
  ret l.

Definition Light_set_position (l : uid) (p : Vector3) : M unit :=
  modify (fun w => set_lights (update light_uid l
    (fun o => mkLight (light_uid o) (light_scene o) (light_name o) (light_direction o) p)
    (lights w)) w).

Definition new_ShadowGenerator (mapSize : number) (light : uid) : M uid :=
  g <- fresh ;;
  modify (fun w => set_shadowGenerators
    (shadowGenerators w ++ [mkShadowGenerator g mapSize light []]) w) ;;
  call (NewShadowGenerator g mapSize light) ;;
  ret g.

(** [addShadowCaster(mesh)] pushes the mesh on the generator's render list
    unless it is there already. *)
Definition push_caster (mesh : uid) (o : ShadowGenerator) : ShadowGenerator :=
  mkShadowGenerator (sg_uid o) (sg_mapSize o) (sg_light o)
    (if existsb (Nat.eqb mesh) (sg_renderList o)
     then sg_renderList o
     else sg_renderList o ++ [mesh]).

Definition ShadowGenerator_addShadowCaster (g mesh : uid) : M unit :=
  modify (fun w => set_shadowGenerators
    (update sg_uid g (push_caster mesh) (shadowGenerators w)) w) ;;
  call (AddShadowCaster g mesh).

Definition new_StandardMaterial (name : string) (scene : uid) : M uid :=
  m <- fresh ;;
  modify (fun w => set_materials
    (materials w ++ [mkMaterial m scene name true None None white white black black]) w) ;;
  call (NewStandardMaterial m scene) ;;
  ret m.

Definition Material_write (m : uid) (f : Material -> Material) : M unit :=
  modify (fun w => set_materials (update material_uid m f (materials w)) w).

Definition with_backFaceCulling (b : bool) (o : Material) : Material :=
  mkMaterial (material_uid o) (material_scene o) (material_name o) b
    (material_diffuseTexture o) (material_reflectionTexture o) (material_diffuseColor o)
    (material_specularColor o) (material_emissiveColor o) (material_ambientColor o).
Definition with_diffuseTexture (t : uid) (o : Material) : Material :=
  mkMaterial (material_uid o) (material_scene o) (material_name o)
    (material_backFaceCulling o) (Some t) (material_reflectionTexture o)
    (material_diffuseColor o) (material_specularColor o) (material_emissiveColor o)
    (material_ambientColor o).
Definition with_reflectionTexture (t : uid) (o : Material) : Material :=
  mkMaterial (material_uid o) (material_scene o) (material_name o)
    (material_backFaceCulling o) (material_diffuseTexture o) (Some t)
    (material_diffuseColor o) (material_specularColor o) (material_emissiveColor o)
    (material_ambientColor o).
Definition with_diffuseColor (c : Color3) (o : Material) : Material :=
  mkMaterial (material_uid o) (material_scene o) (material_name o)
    (material_backFaceCulling o) (material_diffuseTexture o)
    (material_reflectionTexture o) c (material_specularColor o)
    (material_emissiveColor o) (material_ambientColor o).
Definition with_specularColor (c : Color3) (o : Material) : Material :=
  mkMaterial (material_uid o) (material_scene o) (material_name o)
    (material_backFaceCulling o) (material_diffuseTexture o)
    (material_reflectionTexture o) (material_diffuseColor o) c
    (material_emissiveColor o) (material_ambientColor o).
Definition with_emissiveColor (c : Color3) (o : Material) : Material :=
  mkMaterial (material_uid o) (material_scene o) (material_name o)
    (material_backFaceCulling o) (material_diffuseTexture o)
    (material_reflectionTexture o) (material_diffuseColor o)
    (material_specularColor o) c (material_ambientColor o).
Definition with_ambientColor (c : Color3) (o : Material) : Material :=
  mkMaterial (material_uid o) (material_scene o) (material_name o)
    (material_backFaceCulling o) (material_diffuseTexture o)
    (material_reflectionTexture o) (material_diffuseColor o)
    (material_specularColor o) (material_emissiveColor o) c.

Definition new_Texture (url : string) (scene : uid) : M uid :=
  t <- fresh ;;
  modify (fun w => set_textures
    (textures w ++ [mkTexture t scene (ImageTexture url) Texture_EXPLICIT_MODE]) w) ;;
  call (NewTexture t scene) ;;
  ret t.

Definition new_CubeTexture (rootUrl : string) (scene : uid) : M uid :=
  t <- fresh ;;
  modify (fun w => set_textures
    (textures w ++ [mkTexture t scene (CubeTexture rootUrl) Texture_CUBIC_MODE]) w) ;;
  call (NewCubeTexture t scene) ;;
  ret t.

Definition Texture_set_coordinatesMode (t : uid) (mode : Z) : M unit :=
  modify (fun w => set_textures (update texture_uid t
    (fun o => mkTexture (texture_uid o) (texture_scene o) (texture_source o) mode)
    (textures w)) w).

Definition new_mesh (name : string) (g : Geometry) (scene : uid) (c : uid -> uid -> Call)
  : M uid :=
  m <- fresh ;;
  modify (fun w => set_meshes
    (meshes w ++ [mkMesh m scene name g Vector3_Zero false None]) w) ;;
  call (c m scene) ;;
  ret m.

Definition MeshBuilder_CreateGroundFromHeightMap (name url : string)
    (width height subdivisions maxHeight minHeight : number) (scene : uid) : M uid :=
  new_mesh name (GroundFromHeightMap url width height subdivisions maxHeight minHeight)
    scene CreateGroundFromHeightMap.

Definition MeshBuilder_CreateBox (name : string) (size : number) (scene : uid) : M uid :=
  new_mesh name (Box size) scene CreateBox.

Definition MeshBuilder_CreateCylinder (name : string)
    (diameter tessellation height : number) (scene : uid) : M uid :=
  new_mesh name (Cylinder diameter tessellation height) scene CreateCylinder.

Definition Mesh_write (m : uid) (f : Mesh -> Mesh) : M unit :=
  modify (fun w => set_meshes (update mesh_uid m f (meshes w)) w).

Definition with_position (f : Vector3 -> Vector3) (o : Mesh) : Mesh :=
  mkMesh (mesh_uid o) (mesh_scene o) (mesh_name o) (mesh_geometry o)
    (f (mesh_position o)) (mesh_receiveShadows o) (mesh_material o).
Definition with_x (x : number) (p : Vector3) : Vector3 := mkVector3 x (v_y p) (v_z p).
Definition with_y (y : number) (p : Vector3) : Vector3 := mkVector3 (v_x p) y (v_z p).
Definition with_z (z : number) (p : Vector3) : Vector3 := mkVector3 (v_x p) (v_y p) z.
Definition with_receiveShadows (b : bool) (o : Mesh) : Mesh :=
  mkMesh (mesh_uid o) (mesh_scene o) (mesh_name o) (mesh_geometry o)
    (mesh_position o) b (mesh_material o).
Definition with_material (m : uid) (o : Mesh) : Mesh :=
  mkMesh (mesh_uid o) (mesh_scene o) (mesh_name o) (mesh_geometry o)
    (mesh_position o) (mesh_receiveShadows o) (Some m).

Definition Engine_runRenderLoop (e : uid) (renderFunction : Callback) : M unit :=
  modify (fun w => set_renderLoops (renderLoops w ++ [(e, renderFunction)]) w) ;;
  call (RunRenderLoop e).

End BABYLON.
Import BABYLON.

(** [window.addEventListener('resize', listener)]. *)
Definition window_addEventListener_resize (listener : Callback) : M unit :=
  modify (fun w => set_resizeListeners (resizeListeners w ++ [listener]) w) ;;
  call AddResizeListener.

(** [for (let i = 0; i < n; i++) body], for an integer bound [n]: the body
    runs for i = 0, 1, ..., n - 1 and not at all when [n <= 0].  [s] is the
    state the body carries from one iteration to the next. *)
Fixpoint for_from {S : Type} (i : Z) (iterations : nat) (body : Z -> S -> M S) (s : S)
  : M S :=
  match iterations with
  | O => ret s
  | S k => s' <- body i s ;; for_from (i + 1)%Z k body s'
  end.

Definition for_lt {S : Type} (n : Z) (body : Z -> S -> M S) (s : S) : M S :=
  for_from 0%Z (Z.to_nat n) body s.

(** ** The composable *)

Local Open Scope float_scope.

(** Reading the closure variable [shadowGenerator] in order to call a method
    on it: a [TypeError] while the variable is [undefined]. *)
Definition shadowGenerator_object : M uid :=
  fun w =>
    match shadowGenerator w with
    | Some g => (Normal g, w)
    | None => (Throw (TypeError "shadowGenerator is undefined"), w)
    end.

(** [createGroundObject(x, z, height, scene)] *)
Definition createGroundObject (x z height : number) (scene : uid) : M unit :=
  obj <- MeshBuilder_CreateCylinder "roof" 1 6 height scene ;;
  Mesh_write obj (with_position (with_x x)) ;;
  Mesh_write obj (with_position (with_z z)) ;;
  Mesh_write obj (with_position (with_y (height / 2))) ;;
  Mesh_write obj (with_receiveShadows true) ;;
  g <- shadowGenerator_object ;;
  ShadowGenerator_addShadowCaster g obj.

(** [createGroundLine(length, XPos, ZPos, scene)]; the loop carries the
    parameter [ZPos], which the body reassigns. *)
Definition createGroundLine (length : Z) (XPos ZPos : number) (scene : uid) : M unit :=
  for_lt length
    (fun _ ZPos =>
       r <- Math_random ;;
       createGroundObject XPos ZPos (r / 2 + 0.5) scene ;;
       ret (ZPos + Math_sqrt 3 / 2))
    ZPos ;;
  ret tt.

(** [createGround(size, XPos, ZPos, scene)], with [size = {x: size_x, z: size_z}]. *)
Definition createGround (size_x size_z : Z) (XPos ZPos : number) (scene : uid) : M unit :=
  for_lt size_x
    (fun i _ =>
       if (Z.rem i 2 =? 0)%Z
       then createGroundLine size_z (XPos + of_int i * 0.75) (ZPos + 0.5) scene
       else createGroundLine size_z (XPos + of_int i * 0.75) ZPos scene)
    tt.

(** [createSkyBox(scene)] *)
Definition createSkyBox (scene : uid) : M unit :=
  skybox <- MeshBuilder_CreateBox "skyBox" 1000.0 scene ;;
  skyboxMaterial <- new_StandardMaterial "skyBox" scene ;;
  Material_write skyboxMaterial (with_backFaceCulling false) ;;
  reflectionTexture <- new_CubeTexture "src/assets/map/skybox/skybox" scene ;;
  Material_write skyboxMaterial (with_reflectionTexture reflectionTexture) ;;
  Texture_set_coordinatesMode reflectionTexture Texture_SKYBOX_MODE ;;
  Material_write skyboxMaterial (with_diffuseColor (mkColor3 0 0 0)) ;;
  Material_write skyboxMaterial (with_specularColor (mkColor3 0 0 0)) ;;
  Mesh_write skybox (with_material skyboxMaterial).

(** [createRealGround(scene)] *)
Definition createRealGround (scene : uid) : M unit :=
  groundMaterial <- new_StandardMaterial "ground" scene ;;
  diffuseTexture <- new_Texture "/src/assets/map/bit_map.png" scene ;;
  Material_write groundMaterial (with_diffuseTexture diffuseTexture) ;;
  Material_write groundMaterial (with_specularColor (mkColor3 0.1 0.1 0.1)) ;;
  Material_write groundMaterial (with_emissiveColor (mkColor3 1 1 1)) ;;
  Material_write groundMaterial (with_ambientColor (mkColor3 0.23 0.98 0.53)) ;;
  ground <- MeshBuilder_CreateGroundFromHeightMap "12d3" "/src/assets/map/height_map.png"
              20 20 250 10 2 scene ;;
  Mesh_write ground (with_material groundMaterial) ;;
  Mesh_write ground (with_receiveShadows true).

(** [createScene(engine, canvas)] *)
Definition createScene (engine canvas : uid) : M uid :=
  scene <- new_Scene engine ;;
  camera <- new_ArcRotateCamera "camera" (- Math_PI / 2) (Math_PI / 2.5) 10
              (mkVector3 0 0 0) scene ;;
  Camera_setTarget camera Vector3_Zero ;;
  Camera_attachControl camera canvas false ;;
  light <- new_DirectionalLight "dir01" (mkVector3 0 (-0.1) 0.1) scene ;;
  Light_set_position light (mkVector3 10 10 0) ;;
  g <- new_ShadowGenerator 1024 light ;;
  modify (set_shadowGenerator (Some g)) ;;
  createRealGround scene ;;
  createSkyBox scene ;;
  ret scene.

(** [Init(canvas)] *)
Definition Init (canvas : uid) : M unit :=
  engine <- new_Engine canvas true true true ;;
  scene <- createScene engine canvas ;;
  Engine_runRenderLoop engine (RenderScene scene) ;;
  window_addEventListener_resize (ResizeEngine engine).

(** ** The host's event queue

    Both callbacks are run by the host, one event at a time: an animation
    frame runs the registered render functions, a resize of the window runs
    the registered resize listeners. *)

Inductive HostEvent :=
| AnimationFrame
| WindowResize.

Definition run_callback (cb : Callback) : M unit :=
  match cb with
  | RenderScene scene => call (SceneRender scene)
  | ResizeEngine engine => call (EngineResize engine)
  end.

Fixpoint run_callbacks (cbs : list Callback) : M unit :=
  match cbs with
  | [] => ret tt
  | cb :: rest => run_callback cb ;; run_callbacks rest
  end.

Definition dispatch (ev : HostEvent) : M unit :=
  fun w =>
    match ev with
    | AnimationFrame => run_callbacks (map snd (renderLoops w)) w
    | WindowResize => run_callbacks (resizeListeners w) w
    end.

Fixpoint dispatch_all (evs : list HostEvent) : M unit :=
  match evs with
  | [] => ret tt
  | ev :: rest => dispatch ev ;; dispatch_all rest
  end.

(** ** Observations *)

(** The placement point of a mesh: its x and z coordinates. *)
Definition placement (m : Mesh) : number * number :=
  (v_x (mesh_position m), v_z (mesh_position m)).

(** The meshes a computation added to the store, oldest first. *)
Definition created_meshes (w w' : World) : list Mesh :=
  skipn (List.length (meshes w)) (meshes w').

(** The hex layout: the placement points of the columns that
    [createGround] creates from the world [w], in creation order. *)
Definition generateLayout (rowCount columnsPerRow : Z) (originX originZ : number)
    (scene : uid) (w : World) : list (number * number) :=
  map placement
    (created_meshes w (snd (createGround rowCount columnsPerRow originX originZ scene w))).

(** The same observation for a single line of columns. *)
Definition lineLayout (length : Z) (XPos ZPos : number) (scene : uid) (w : World)
  : list (number * number) :=
  map placement (created_meshes w (snd (createGroundLine length XPos ZPos scene w))).

Definition find_shadowGenerator (g : uid) (w : World) : option ShadowGenerator :=
  find (fun o => Nat.eqb (sg_uid o) g) (shadowGenerators w).

(** The shadow casters registered with the generator [g]. *)
Definition casters (g : uid) (w : World) : list uid :=
  match find_shadowGenerator g w with
  | Some o => sg_renderList o
  | None => []
  end.

Definition find_material (m : uid) (w : World) : option Material :=
  find (fun o => Nat.eqb (material_uid o) m) (materials w).

Definition find_texture (t : uid) (w : World) : option Texture :=
  find (fun o => Nat.eqb (texture_uid o) t) (textures w).

Definition find_light (l : uid) (w : World) : option Light :=
  find (fun o => Nat.eqb (light_uid o) l) (lights w).

(** ** Well-formed worlds

    Object identities are handed out in increasing order, so every identity
    stored anywhere is below [next_uid], and the closure variable
    [shadowGenerator], once assigned, refers to a generator of the store. *)

Definition below (n : uid) (u : uid) : bool := Nat.ltb u n.

Definition wf (w : World) : bool :=
  let n := next_uid w in
  forallb (fun o => below n (engine_uid o)) (engines w)
  && forallb (fun o => below n (scene_uid o)) (scenes w)
  && forallb (fun o => below n (camera_uid o)) (cameras w)
  && forallb (fun o => below n (light_uid o)) (lights w)
  && forallb (fun o => below n (sg_uid o) && forallb (below n) (sg_renderList o))
       (shadowGenerators w)
  && forallb (fun o => below n (mesh_uid o)) (meshes w)
  && forallb (fun o => below n (material_uid o)) (materials w)
  && forallb (fun o => below n (texture_uid o)) (textures w)
  && match shadowGenerator w with
     | Some g => existsb (fun o => Nat.eqb (sg_uid o) g) (shadowGenerators w)
     | None => true
     end.

(** Every reference to a scene, a light or an engine held by an object or by
    a registered callback is the identity of an object that was allocated. *)
Definition callback_below (n : uid) (cb : Callback) : bool :=
  match cb with
  | RenderScene s => below n s
  | ResizeEngine e => below n e
  end.

Definition scoped (w : World) : bool :=
  let n := next_uid w in
  forallb (fun o => below n (camera_scene o)) (cameras w)
  && forallb (fun o => below n (light_scene o)) (lights w)
  && forallb (fun o => below n (sg_light o)) (shadowGenerators w)
  && forallb (fun o => below n (mesh_scene o)) (meshes w)
  && forallb (fun o => below n (fst o) && callback_below n (snd o)) (renderLoops w)
  && forallb (callback_below n) (resizeListeners w).

(** The points the source computes, written out: row [i] sits at
    [XPos + i * 0.75]; it starts at [ZPos + 0.5] when [i] is even and at
    [ZPos] when it is odd; each further column adds [Math.sqrt(3) / 2] to the
    z of the column before it. *)
Definition row_x (XPos : number) (i : Z) : number := XPos + of_int i * 0.75.

Definition row_z (ZPos : number) (i : Z) : number :=
  if (Z.rem i 2 =? 0)%Z then ZPos + 0.5 else ZPos.

Fixpoint advance (j : nat) (z : number) : number :=
  match j with
  | O => z
  | S k => advance k (z + Math_sqrt 3 / 2)
  end.

Definition line_points (columns : nat) (x z : number) : list (number * number) :=
  map (fun j => (x, advance j z)) (seq 0 columns).

Definition grid_points (rows columns : nat) (XPos ZPos : number)
  : list (number * number) :=
  flat_map (fun i => line_points columns (row_x XPos (Z.of_nat i)) (row_z ZPos (Z.of_nat i)))
    (seq 0 rows).

(** The column [createGroundObject] builds. *)
Definition column (u scene : uid) (x z height : number) : Mesh :=
  mkMesh u scene "roof" (Cylinder 1 6 height) (mkVector3 x (height / 2) z) true None.

(** [Math.random()] stays in its range: every draw is at least 0 and below 1. *)
Definition random_in_range (w : World) : Prop :=
  forall n, (0 <=? random_source w n) = true /\ (random_source w n <? 1) = true.

Local Close Scope float_scope.

(** * Properties *)

(** ** Writes through references *)

Arguments update : simpl never.
Arguments Math_sqrt : simpl never.
Arguments of_int : simpl never.

Lemma update_fresh {A} (id_of : A -> uid) (n : uid) (f : A -> A) (l : list A) :
  forallb (fun o => below n (id_of o)) l = true -> update id_of n f l = l.
Proof.
  unfold update. induction l as [|o l IH]; simpl; intros H; [reflexivity|].
  apply andb_true_iff in H as [Ho Hl].
  unfold below in Ho. apply Nat.ltb_lt in Ho.
  destruct (Nat.eqb_spec (id_of o) n) as [E|_]; [lia|].
  f_equal. now apply IH.
Qed.

Lemma update_app {A} (id_of : A -> uid) (n : uid) (f : A -> A) (l1 l2 : list A) :
  update id_of n f (l1 ++ l2) = update id_of n f l1 ++ update id_of n f l2.
Proof. unfold update. apply map_app. Qed.

Lemma forallb_weaken {A} (P Q : A -> bool) (l : list A) :
  (forall o, P o = true -> Q o = true) -> forallb P l = true -> forallb Q l = true.
Proof.
  intros HPQ. induction l as [|o l IH]; simpl; [easy|].
  intros H. apply andb_true_iff in H as [Ho Hl].
  apply andb_true_iff. split; auto.
Qed.

Lemma below_S (n u : uid) : below n u = true -> below (S n) u = true.
Proof. unfold below. intros H. apply Nat.ltb_lt in H. apply Nat.ltb_lt. lia. Qed.

Lemma below_self (n : uid) : below (S n) n = true.
Proof. unfold below. apply Nat.ltb_lt. lia. Qed.

Lemma update_hit {A} (id_of : A -> uid) (n : uid) (f : A -> A) (o : A) :
  id_of o = n -> update id_of n f [o] = [f o].
Proof. intros E. unfold update. simpl. rewrite E, Nat.eqb_refl. reflexivity. Qed.

Lemma forallb_update {A} (P : A -> bool) (id_of : A -> uid) (n : uid) (f : A -> A)
    (l : list A) :
  (forall o, P o = true -> P (f o) = true) ->
  forallb P l = true -> forallb P (update id_of n f l) = true.
Proof.
  intros Hf. unfold update. induction l as [|o l IH]; simpl; [easy|].
  intros H. apply andb_true_iff in H as [Ho Hl].
  apply andb_true_iff. split; [|auto].
  destruct (Nat.eqb (id_of o) n); auto.
Qed.

Lemma existsb_update {A} (Q : A -> bool) (id_of : A -> uid) (n : uid) (f : A -> A)
    (l : list A) :
  (forall o, Q (f o) = Q o) -> existsb Q (update id_of n f l) = existsb Q l.
Proof.
  intros Hf. unfold update. induction l as [|o l IH]; simpl; [easy|].
  rewrite IH. f_equal. destruct (Nat.eqb (id_of o) n); auto.
Qed.

Lemma find_update {A} (id_of : A -> uid) (n : uid) (f : A -> A) (l : list A) :
  (forall o, id_of (f o) = id_of o) ->
  find (fun o => Nat.eqb (id_of o) n) (update id_of n f l)
  = option_map f (find (fun o => Nat.eqb (id_of o) n) l).
Proof.
  intros Hf. unfold update. induction l as [|o l IH]; simpl; [easy|].
  destruct (Nat.eqb (id_of o) n) eqn:E.
  - rewrite Hf, E. reflexivity.
  - rewrite E. exact IH.
Qed.

Lemma existsb_find {A} (Q : A -> bool) (l : list A) :
  existsb Q l = true -> exists o, find Q l = Some o.
Proof.
  induction l as [|o l IH]; simpl; [discriminate|].
  destruct (Q o); [eauto|exact IH].
Qed.

Lemma fresh_not_listed (n : uid) (l : list uid) :
  forallb (below n) l = true -> existsb (Nat.eqb n) l = false.
Proof.
  induction l as [|u l IH]; simpl; [easy|].
  intros H. apply andb_true_iff in H as [Hu Hl].
  unfold below in Hu. apply Nat.ltb_lt in Hu.
  rewrite (IH Hl). destruct (Nat.eqb_spec n u); [lia|reflexivity].
Qed.

(** Unfolds the monad and the field updates on a world given by its fields. *)
Ltac run :=
  cbv beta iota zeta delta
    [bind ret throw modify call fresh Math_random
     set_next_uid set_engines set_scenes set_cameras set_lights set_shadowGenerators
     set_meshes set_materials set_textures set_shadowGenerator set_random_draws
     set_renderLoops set_resizeListeners set_trace
     next_uid engines scenes cameras lights shadowGenerators meshes materials textures
     shadowGenerator random_source random_draws renderLoops resizeListeners trace
     fst snd].

(** Splits a boolean conjunction in the context into its conjuncts. *)
Ltac split_andb :=
  repeat match goal with
         | H : (_ && _)%bool = true |- _ => apply andb_true_iff in H; destruct H
         end.

(** ** One column *)

(** The world after [createGroundObject] returned normally. *)
Definition column_world (g : uid) (x z height : number) (scene : uid) (w : World) : World :=
  mkWorld (S (next_uid w)) (engines w) (scenes w) (cameras w) (lights w)
    (update sg_uid g (push_caster (next_uid w)) (shadowGenerators w))
    (meshes w ++ [column (next_uid w) scene x z height])
    (materials w) (textures w) (shadowGenerator w)
    (random_source w) (random_draws w) (renderLoops w) (resizeListeners w)
    (trace w ++ [CreateCylinder (next_uid w) scene; AddShadowCaster g (next_uid w)]).

Lemma wf_meshes_below (w : World) :
  wf w = true -> forallb (fun o => below (next_uid w) (mesh_uid o)) (meshes w) = true.
Proof.
  unfold wf. intros H. split_andb. assumption.
Qed.

Lemma createGroundObject_defined (w : World) (g : uid) (x z height : number) (scene : uid) :
  shadowGenerator w = Some g -> wf w = true ->
  createGroundObject x z height scene w = (Normal tt, column_world g x z height scene w).
Proof.
  intros Hg Hwf. pose proof (wf_meshes_below w Hwf) as Hm.
  unfold createGroundObject, MeshBuilder_CreateCylinder, new_mesh, Mesh_write,
    shadowGenerator_object, ShadowGenerator_addShadowCaster, column_world.
  destruct w. cbn in Hg, Hm. subst. run.
  rewrite !update_app, !(update_fresh _ _ _ _ Hm).
  rewrite !update_hit by reflexivity.
  rewrite <- app_assoc. reflexivity.
Qed.

Lemma createGroundObject_undefined (w : World) (x z height : number) (scene : uid) :
  shadowGenerator w = None ->
  fst (createGroundObject x z height scene w)
  = Throw (TypeError "shadowGenerator is undefined").
Proof.
  intros Hg.
  unfold createGroundObject, MeshBuilder_CreateCylinder, new_mesh, Mesh_write,
    shadowGenerator_object, ShadowGenerator_addShadowCaster.
  destruct w. cbn in Hg. subst. run. reflexivity.
Qed.

Lemma push_caster_fresh (n : uid) (o : ShadowGenerator) :
  forallb (below n) (sg_renderList o) = true ->
  sg_renderList (push_caster n o) = sg_renderList o ++ [n].
Proof. intros H. unfold push_caster. simpl. now rewrite fresh_not_listed. Qed.

Lemma wf_column_world (w : World) (g : uid) (x z height : number) (scene : uid) :
  wf w = true -> wf (column_world g x z height scene w) = true.
Proof.
  unfold wf, column_world. destruct w. run. intros H. split_andb.
  repeat (apply andb_true_iff; split);
    try (eapply forallb_weaken; [|eassumption]; intros o; apply below_S).
  - apply forallb_update.
    + intros o Ho. cbv beta in Ho. split_andb. unfold push_caster. simpl.
      apply andb_true_iff. split; [assumption|].
      destruct (existsb (Nat.eqb next_uid0) (sg_renderList o)); [assumption|].
      rewrite forallb_app. apply andb_true_iff. split; [assumption|].
      simpl. now rewrite below_self.
    + eapply forallb_weaken; [|eassumption]. intros o Ho. cbv beta in Ho. split_andb.
      apply andb_true_iff. split; [now apply below_S|].
      eapply forallb_weaken; [|eassumption]. intros u. apply below_S.
  - rewrite forallb_app. apply andb_true_iff. split.
    + eapply forallb_weaken; [|eassumption]. intros o. apply below_S.
    + simpl. now rewrite below_self.
  - destruct shadowGenerator0 as [g'|]; [|reflexivity].
    rewrite existsb_update; [assumption|]. intros o. reflexivity.
Qed.

Lemma casters_column_world (w : World) (g : uid) (x z height : number) (scene : uid) :
  shadowGenerator w = Some g -> wf w = true ->
  casters g (column_world g x z height scene w) = casters g w ++ [next_uid w].
Proof.
  unfold wf, casters, find_shadowGenerator, column_world. destruct w. run.
  intros Hg H. subst. split_andb.
  rewrite find_update by reflexivity.
  destruct (existsb_find _ _ H0) as [o Ho]. rewrite Ho. simpl.
  apply push_caster_fresh.
  apply find_some in Ho as [Hin _].
  rewrite forallb_forall in H4. apply H4 in Hin. now split_andb.
Qed.

(** ** A line of columns, a field of columns *)

(** The columns one run of the loop of [createGroundLine] builds: [u] is the
    next free identity, [d] the number of draws made so far. *)
Fixpoint line_columns (k : nat) (u : uid) (d : nat) (rnd : nat -> number) (scene : uid)
    (x z : number) : list Mesh :=
  match k with
  | O => []
  | S k' =>
      column u scene x z (rnd d / 2 + 0.5)%float
      :: line_columns k' (S u) (S d) rnd scene x (z + Math_sqrt 3 / 2)%float
  end.

Fixpoint grid_columns (rows : nat) (i : Z) (columns : nat) (u : uid) (d : nat)
    (rnd : nat -> number) (scene : uid) (XPos ZPos : number) : list Mesh :=
  match rows with
  | O => []
  | S r =>
      line_columns columns u d rnd scene (row_x XPos i) (row_z ZPos i)
      ++ grid_columns r (i + 1)%Z columns (u + columns) (d + columns) rnd scene XPos ZPos
  end.

(** What a run that only builds columns does to the world. *)
Definition adds_columns (g : uid) (w w' : World) (cols : list Mesh) : Prop :=
  meshes w' = meshes w ++ cols
  /\ next_uid w' = next_uid w + List.length cols
  /\ random_draws w' = random_draws w + List.length cols
  /\ random_source w' = random_source w
  /\ shadowGenerator w' = shadowGenerator w
  /\ casters g w' = casters g w ++ map mesh_uid cols
  /\ wf w' = true.

Lemma adds_columns_nil (g : uid) (w : World) : wf w = true -> adds_columns g w w [].
Proof.
  intros H. unfold adds_columns. simpl.
  rewrite !app_nil_r, !Nat.add_0_r. tauto.
Qed.

Lemma adds_columns_trans (g : uid) (w1 w2 w3 : World) (c1 c2 : list Mesh) :
  adds_columns g w1 w2 c1 -> adds_columns g w2 w3 c2 -> adds_columns g w1 w3 (c1 ++ c2).
Proof.
  unfold adds_columns. intros (M1 & U1 & D1 & R1 & G1 & C1 & W1) (M2 & U2 & D2 & R2 & G2 & C2 & W2).
  rewrite M2, M1, U2, U1, D2, D1, R2, R1, G2, G1, C2, C1.
  rewrite length_app, map_app, <- !app_assoc.
  repeat split; try reflexivity; try lia; assumption.
Qed.

(** One turn of the loop of [createGroundLine]: a draw, then a column. *)
Lemma line_turn (w : World) (g : uid) (x z : number) (scene : uid) :
  shadowGenerator w = Some g -> wf w = true ->
  exists w',
    (r <- Math_random ;;
     createGroundObject x z (r / 2 + 0.5)%float scene ;;
     ret (z + Math_sqrt 3 / 2)%float) w
    = (Normal (z + Math_sqrt 3 / 2)%float, w')
    /\ adds_columns g w w'
         [column (next_uid w) scene x z (random_source w (random_draws w) / 2 + 0.5)%float].
Proof.
  intros Hg Hwf.
  set (w1 := set_random_draws (S (random_draws w)) w).
  assert (Hg1 : shadowGenerator w1 = Some g) by (destruct w; exact Hg).
  assert (Hwf1 : wf w1 = true) by (destruct w; exact Hwf).
  exists (column_world g x z (random_source w (random_draws w) / 2 + 0.5)%float scene w1).
  split.
  - unfold bind at 1. unfold Math_random. fold w1.
    unfold bind. rewrite (createGroundObject_defined w1 g) by assumption.
    reflexivity.
  - unfold adds_columns.
    rewrite (casters_column_world w1 g) by assumption.
    rewrite wf_column_world by assumption.
    destruct w. simpl. repeat split; try reflexivity; lia.
Qed.

Lemma line_loop (g : uid) (x : number) (scene : uid) (k : nat) :
  forall (i : Z) (z : number) (w : World),
    shadowGenerator w = Some g -> wf w = true ->
    exists w',
      for_from i k
        (fun _ ZPos =>
           r <- Math_random ;;
           createGroundObject x ZPos (r / 2 + 0.5)%float scene ;;
           ret (ZPos + Math_sqrt 3 / 2)%float) z w
      = (Normal (advance k z), w')
      /\ adds_columns g w w'
           (line_columns k (next_uid w) (random_draws w) (random_source w) scene x z).
Proof.
  induction k as [|k IH]; intros i z w Hg Hwf.
  - exists w. split; [reflexivity|]. now apply adds_columns_nil.
  - destruct (line_turn w g x z scene Hg Hwf) as (w1 & E1 & A1).
    pose proof A1 as (M1 & U1 & D1 & R1 & G1 & C1 & W1).
    destruct (IH (i + 1)%Z (z + Math_sqrt 3 / 2)%float w1) as (w2 & E2 & A2);
      [congruence|assumption|].
    exists w2. split.
    + cbn [for_from]. unfold bind at 1. rewrite E1. exact E2.
    + cbn [line_columns].
      change (?c :: ?l) with ([c] ++ l).
      eapply adds_columns_trans; [exact A1|].
      simpl in U1, D1. rewrite U1, D1, R1 in A2.
      rewrite !Nat.add_1_r in A2. exact A2.
Qed.

Lemma createGroundLine_defined (w : World) (g : uid) (length : Z) (x z : number)
    (scene : uid) :
  shadowGenerator w = Some g -> wf w = true ->
  exists w',
    createGroundLine length x z scene w = (Normal tt, w')
    /\ adds_columns g w w'
         (line_columns (Z.to_nat length) (next_uid w) (random_draws w) (random_source w)
            scene x z).
Proof.
  intros Hg Hwf.
  destruct (line_loop g x scene (Z.to_nat length) 0%Z z w Hg Hwf) as (w' & E & A).
  exists w'. split; [|exact A].
  unfold createGroundLine, for_lt. unfold bind at 1. rewrite E. reflexivity.
Qed.

Lemma line_columns_length (k : nat) u d rnd scene x z :
  List.length (line_columns k u d rnd scene x z) = k.
Proof.
  revert u d z. induction k as [|k IH]; intros; simpl; [reflexivity|]. now rewrite IH.
Qed.

Lemma ground_loop (g : uid) (size_z : Z) (XPos ZPos : number) (scene : uid) (rows : nat) :
  forall (i : Z) (w : World),
    shadowGenerator w = Some g -> wf w = true ->
    exists w',
      for_from i rows
        (fun i _ =>
           if (Z.rem i 2 =? 0)%Z
           then createGroundLine size_z (XPos + of_int i * 0.75)%float (ZPos + 0.5)%float scene
           else createGroundLine size_z (XPos + of_int i * 0.75)%float ZPos scene) tt w
      = (Normal tt, w')
      /\ adds_columns g w w'
           (grid_columns rows i (Z.to_nat size_z) (next_uid w) (random_draws w)
              (random_source w) scene XPos ZPos).
Proof.
  induction rows as [|rows IH]; intros i w Hg Hwf.
  - exists w. split; [reflexivity|]. now apply adds_columns_nil.
  - destruct (createGroundLine_defined w g size_z (row_x XPos i) (row_z ZPos i) scene Hg Hwf)
      as (w1 & E1 & A1).
    pose proof A1 as (M1 & U1 & D1 & R1 & G1 & C1 & W1).
    destruct (IH (i + 1)%Z w1) as (w2 & E2 & A2); [congruence|assumption|].
    exists w2. split.
    + cbn [for_from]. unfold bind at 1.
      replace (if (Z.rem i 2 =? 0)%Z
               then createGroundLine size_z (XPos + of_int i * 0.75)%float (ZPos + 0.5)%float scene
               else createGroundLine size_z (XPos + of_int i * 0.75)%float ZPos scene)
        with (createGroundLine size_z (row_x XPos i) (row_z ZPos i) scene)
        by (unfold row_x, row_z; destruct (Z.rem i 2 =? 0)%Z; reflexivity).
      rewrite E1. exact E2.
    + cbn [grid_columns].
      eapply adds_columns_trans; [exact A1|].
      rewrite line_columns_length in U1, D1. rewrite U1, D1, R1 in A2. exact A2.
Qed.

Lemma createGround_defined (w : World) (g : uid) (size_x size_z : Z) (XPos ZPos : number)
    (scene : uid) :
  shadowGenerator w = Some g -> wf w = true ->
  exists w',
    createGround size_x size_z XPos ZPos scene w = (Normal tt, w')
    /\ adds_columns g w w'
         (grid_columns (Z.to_nat size_x) 0%Z (Z.to_nat size_z) (next_uid w)
            (random_draws w) (random_source w) scene XPos ZPos).
Proof.
  intros Hg Hwf. unfold createGround, for_lt. now apply ground_loop.
Qed.

(** ** The layout of the columns *)

Lemma created_meshes_app (w w' : World) (cols : list Mesh) :
  meshes w' = meshes w ++ cols -> created_meshes w w' = cols.
Proof.
  intros E. unfold created_meshes. rewrite E.
  rewrite skipn_app, skipn_all, Nat.sub_diag. reflexivity.
Qed.


Lemma line_columns_placement (k : nat) u d rnd scene x z :
  map placement (line_columns k u d rnd scene x z) = line_points k x z.
Proof.
  unfold line_points. revert u d z.
  induction k as [|k IH]; intros u d z; [reflexivity|].
  cbn [line_columns map seq]. rewrite IH.
  rewrite <- seq_shift, map_map. reflexivity.
Qed.

Lemma grid_columns_placement (rows : nat) (columns : nat) rnd scene XPos ZPos :
  forall (i : nat) u d,
    map placement (grid_columns rows (Z.of_nat i) columns u d rnd scene XPos ZPos)
    = flat_map (fun i => line_points columns (row_x XPos (Z.of_nat i))
                           (row_z ZPos (Z.of_nat i)))
        (seq i rows).
Proof.
  induction rows as [|rows IH]; intros i u d; [reflexivity|].
  cbn [grid_columns seq flat_map].
  rewrite map_app, line_columns_placement. f_equal.
  replace (Z.of_nat i + 1)%Z with (Z.of_nat (S i)) by lia.
  apply IH.
Qed.

Lemma line_points_length (k : nat) (x z : number) : List.length (line_points k x z) = k.
Proof. unfold line_points. now rewrite length_map, length_seq. Qed.

Lemma rows_length (columns : nat) (XPos ZPos : number) (rows i : nat) :
  List.length
    (flat_map (fun i => line_points columns (row_x XPos (Z.of_nat i))
                          (row_z ZPos (Z.of_nat i)))
       (seq i rows))
  = rows * columns.
Proof.
  revert i. induction rows as [|rows IH]; intros i; [reflexivity|].
  cbn [seq flat_map]. rewrite length_app, line_points_length, IH. reflexivity.
Qed.

Lemma grid_points_length (rows columns : nat) (XPos ZPos : number) :
  List.length (grid_points rows columns XPos ZPos) = rows * columns.
Proof. apply rows_length. Qed.

Lemma line_points_nth (k j : nat) (x z : number) :
  j < k -> nth_error (line_points k x z) j = Some (x, advance j z).
Proof.
  intros Hj. unfold line_points.
  rewrite nth_error_map, nth_error_seq.
  destruct (Nat.ltb_spec j k); [reflexivity|lia].
Qed.

Lemma rows_nth (columns : nat) (XPos ZPos : number) (rows : nat) :
  forall s i j,
    i < rows -> j < columns ->
    nth_error
      (flat_map (fun i => line_points columns (row_x XPos (Z.of_nat i))
                            (row_z ZPos (Z.of_nat i)))
         (seq s rows))
      (i * columns + j)
    = Some (row_x XPos (Z.of_nat (s + i)), advance j (row_z ZPos (Z.of_nat (s + i)))).
Proof.
  induction rows as [|rows IH]; intros s i j Hi Hj; [lia|].
  cbn [seq flat_map]. destruct i as [|i].
  - rewrite Nat.add_0_r. simpl Nat.mul. simpl Nat.add.
    rewrite nth_error_app1 by (rewrite line_points_length; exact Hj).
    now apply line_points_nth.
  - rewrite nth_error_app2 by (rewrite line_points_length; simpl; lia).
    rewrite line_points_length.
    replace (S i * columns + j - columns) with (i * columns + j) by (simpl; lia).
    rewrite IH by lia. replace (S s + i) with (s + S i) by lia. reflexivity.
Qed.

Lemma grid_points_nth (rows columns : nat) (XPos ZPos : number) (i j : nat) :
  i < rows -> j < columns ->
  nth_error (grid_points rows columns XPos ZPos) (i * columns + j)
  = Some (row_x XPos (Z.of_nat i), advance j (row_z ZPos (Z.of_nat i))).
Proof. intros Hi Hj. unfold grid_points. now rewrite rows_nth. Qed.

(** The layout [createGround] produces, once [shadowGenerator] is assigned. *)
Lemma generateLayout_grid (w : World) (g : uid) (rowCount columnsPerRow : Z)
    (originX originZ : number) (scene : uid) :
  shadowGenerator w = Some g -> wf w = true ->
  fst (createGround rowCount columnsPerRow originX originZ scene w) = Normal tt
  /\ generateLayout rowCount columnsPerRow originX originZ scene w
     = grid_points (Z.to_nat rowCount) (Z.to_nat columnsPerRow) originX originZ.
Proof.
  intros Hg Hwf.
  destruct (createGround_defined w g rowCount columnsPerRow originX originZ scene Hg Hwf)
    as (w' & E & (Hm & _)).
  unfold generateLayout. rewrite E. split; [reflexivity|].
  cbn [snd]. rewrite (created_meshes_app _ _ _ Hm).
  apply (grid_columns_placement _ _ _ _ _ _ 0).
Qed.

Lemma row_z_parity (ZPos : number) (i : nat) :
  row_z ZPos (Z.of_nat i)
  = if Z.even (Z.of_nat i) then (ZPos + 0.5)%float else ZPos.
Proof.
  unfold row_z. rewrite Z.rem_mod_nonneg by lia. rewrite Zmod_even.
  destruct (Z.even (Z.of_nat i)); reflexivity.
Qed.

(** A world to run examples in: the one [Init] leaves behind when it starts
    from the empty world, with canvas 7 and every draw equal to 0.25. *)
Definition demo_world : World := snd (Init 7 (empty_world (fun _ => 0.25%float))).

(** C1. With [shadowGenerator] assigned, for all non-negative [rowCount] and
    [columnsPerRow] the call [createGround] returns normally and its layout has
    exactly [rowCount * columnsPerRow] points, in row-major order: the rows one
    after the other, and within row [i] the columns [j = 0, 1, ...], so that
    the point of row [i] and column [j] has index [i * columnsPerRow + j]. *)
Theorem C1_layout_count_and_order (w : World) (g : uid) (rowCount columnsPerRow : Z)
    (originX originZ : number) (scene : uid) :
  (0 <= rowCount)%Z -> (0 <= columnsPerRow)%Z ->
  shadowGenerator w = Some g -> wf w = true ->
  let layout := generateLayout rowCount columnsPerRow originX originZ scene w in
  fst (createGround rowCount columnsPerRow originX originZ scene w) = Normal tt
  /\ Z.of_nat (List.length layout) = (rowCount * columnsPerRow)%Z
  /\ layout
     = flat_map (fun i => map (fun j => (row_x originX (Z.of_nat i),
                                         advance j (row_z originZ (Z.of_nat i))))
                            (seq 0 (Z.to_nat columnsPerRow)))
         (seq 0 (Z.to_nat rowCount))
  /\ forall i j : nat,
       (Z.of_nat i < rowCount)%Z -> (Z.of_nat j < columnsPerRow)%Z ->
       nth_error layout (i * Z.to_nat columnsPerRow + j)
       = Some (row_x originX (Z.of_nat i), advance j (row_z originZ (Z.of_nat i))).
Proof.
  intros Hr Hc Hg Hwf layout.
  destruct (generateLayout_grid w g rowCount columnsPerRow originX originZ scene Hg Hwf)
    as [Hok Hl].
  subst layout. rewrite Hl. repeat split.
  - exact Hok.
  - rewrite grid_points_length. lia.
  - intros i j Hi Hj. apply grid_points_nth; lia.
Qed.

Lemma C1_layout_count_and_order_witness :
  let layout := generateLayout 2 3 0 0 1 demo_world in
  fst (createGround 2 3 0 0 1 demo_world) = Normal tt
  /\ Z.of_nat (List.length layout) = (2 * 3)%Z
  /\ layout
     = flat_map (fun i => map (fun j => (row_x 0 (Z.of_nat i),
                                         advance j (row_z 0 (Z.of_nat i))))
                            (seq 0 (Z.to_nat 3)))
         (seq 0 (Z.to_nat 2))
  /\ forall i j : nat,
       (Z.of_nat i < 2)%Z -> (Z.of_nat j < 3)%Z ->
       nth_error layout (i * Z.to_nat 3 + j)
       = Some (row_x 0 (Z.of_nat i), advance j (row_z 0 (Z.of_nat i))).
Proof.
  apply (C1_layout_count_and_order demo_world 4 2 3 0 0 1);
    [lia | lia | reflexivity | reflexivity].
Defined.

(** C2. Row [i] of the layout starts at z = [originZ + 0.5] when [i] is even
    and at z = [originZ] when [i] is odd; and [generateLayout(2, 1, 0, 0)] is
    the list [(0, 0.5); (0.75, 0)]. *)
Theorem C2_row_start_parity (w : World) (g : uid) (rowCount columnsPerRow : Z)
    (originX originZ : number) (scene : uid) :
  shadowGenerator w = Some g -> wf w = true ->
  (forall i : nat,
      (Z.of_nat i < rowCount)%Z -> (0 < columnsPerRow)%Z ->
      option_map snd
        (nth_error (generateLayout rowCount columnsPerRow originX originZ scene w)
           (i * Z.to_nat columnsPerRow))
      = Some (if Z.even (Z.of_nat i) then (originZ + 0.5)%float else originZ))
  /\ generateLayout 2 1 0 0 scene w = [(0, 0.5); (0.75, 0)]%float.
Proof.
  intros Hg Hwf. split.
  - intros i Hi Hc.
    destruct (generateLayout_grid w g rowCount columnsPerRow originX originZ scene Hg Hwf)
      as [_ Hl].
    rewrite Hl. rewrite <- (Nat.add_0_r (i * Z.to_nat columnsPerRow)).
    rewrite grid_points_nth by lia.
    cbn [option_map snd advance]. now rewrite row_z_parity.
  - destruct (generateLayout_grid w g 2 1 0 0 scene Hg Hwf) as [_ Hl].
    rewrite Hl. reflexivity.
Qed.

Lemma C2_row_start_parity_witness :
  (forall i : nat,
      (Z.of_nat i < 2)%Z -> (0 < 3)%Z ->
      option_map snd (nth_error (generateLayout 2 3 0 0 1 demo_world) (i * Z.to_nat 3))
      = Some (if Z.even (Z.of_nat i) then (0 + 0.5)%float else 0%float))
  /\ generateLayout 2 1 0 0 1 demo_world = [(0, 0.5); (0.75, 0)]%float.
Proof.
  apply (C2_row_start_parity demo_world 4 2 3 0 0 1); reflexivity.
Defined.

(** ** Negative counts *)

(** A computation fails when it ends in an exception. *)
Definition fails {A} (r : completion A * World) : Prop := exists e, fst r = Throw e.

Lemma createGroundLine_no_columns (w : World) (length : Z) (x z : number) (scene : uid) :
  (length <= 0)%Z -> createGroundLine length x z scene w = (Normal tt, w).
Proof.
  intros H. unfold createGroundLine, for_lt.
  replace (Z.to_nat length) with 0 by lia. reflexivity.
Qed.

Lemma ground_loop_no_columns (size_z : Z) (XPos ZPos : number) (scene : uid) (rows : nat) :
  (size_z <= 0)%Z ->
  forall (i : Z) (w : World),
    for_from i rows
      (fun i _ =>
         if (Z.rem i 2 =? 0)%Z
         then createGroundLine size_z (XPos + of_int i * 0.75)%float (ZPos + 0.5)%float scene
         else createGroundLine size_z (XPos + of_int i * 0.75)%float ZPos scene) tt w
    = (Normal tt, w).
Proof.
  intros Hz. induction rows as [|rows IH]; intros i w; [reflexivity|].
  cbn [for_from]. unfold bind at 1.
  destruct (Z.rem i 2 =? 0)%Z; rewrite createGroundLine_no_columns by exact Hz; apply IH.
Qed.

(** C5 (as the code has it). [createGround] has no check of its counts and
    raises nothing for them: when [rowCount] or [columnsPerRow] is negative
    (or zero) it returns normally, leaves the world as it was, and its layout
    is empty. *)
Theorem C5_negative_counts_build_nothing (w : World) (rowCount columnsPerRow : Z)
    (originX originZ : number) (scene : uid) :
  (rowCount <= 0 \/ columnsPerRow <= 0)%Z ->
  createGround rowCount columnsPerRow originX originZ scene w = (Normal tt, w)
  /\ generateLayout rowCount columnsPerRow originX originZ scene w = [].
Proof.
  intros H.
  assert (E : createGround rowCount columnsPerRow originX originZ scene w = (Normal tt, w)).
  { unfold createGround, for_lt. destruct H as [H|H].
    - replace (Z.to_nat rowCount) with 0 by lia. reflexivity.
    - now apply ground_loop_no_columns. }
  split; [exact E|].
  unfold generateLayout, created_meshes. rewrite E. cbn [snd].
  now rewrite skipn_all.
Qed.

Lemma C5_negative_counts_build_nothing_witness :
  createGround (-1) 5 0 0 1 demo_world = (Normal tt, demo_world)
  /\ generateLayout (-1) 5 0 0 1 demo_world = [].
Proof.
  apply (C5_negative_counts_build_nothing demo_world (-1) 5 0 0 1). left. lia.
Defined.

(** C5 (as stated) fails: [generateLayout(-1, 5, 0, 0)] does not fail, neither
    before [shadowGenerator] is assigned nor after. *)
Lemma C5_counterexample :
  ~ fails (createGround (-1) 5 0 0 1 (empty_world (fun _ => 0.25%float)))
  /\ ~ fails (createGround (-1) 5 0 0 1 demo_world).
Proof. split; intros [e H]; vm_compute in H; discriminate H. Qed.

(** ** Shadow casters *)

Lemma line_columns_uids (k : nat) u d rnd scene x z :
  map mesh_uid (line_columns k u d rnd scene x z) = seq u k.
Proof.
  revert u d z. induction k as [|k IH]; intros u d z; [reflexivity|].
  cbn [line_columns map seq]. now rewrite IH.
Qed.

Lemma grid_columns_length (rows : nat) i columns u d rnd scene XPos ZPos :
  List.length (grid_columns rows i columns u d rnd scene XPos ZPos) = rows * columns.
Proof.
  revert i u d. induction rows as [|rows IH]; intros i u d; [reflexivity|].
  cbn [grid_columns]. rewrite length_app, line_columns_length, IH. reflexivity.
Qed.

Lemma grid_columns_uids (rows : nat) i columns u d rnd scene XPos ZPos :
  map mesh_uid (grid_columns rows i columns u d rnd scene XPos ZPos)
  = seq u (rows * columns).
Proof.
  revert i u d. induction rows as [|rows IH]; intros i u d; [reflexivity|].
  cbn [grid_columns]. rewrite map_app, line_columns_uids, IH.
  simpl Nat.mul. now rewrite seq_app.
Qed.

Lemma line_columns_receive (k : nat) u d rnd scene x z :
  Forall (fun m => mesh_receiveShadows m = true) (line_columns k u d rnd scene x z).
Proof.
  revert u d z. induction k as [|k IH]; intros u d z; constructor; [reflexivity|apply IH].
Qed.

Lemma grid_columns_receive (rows : nat) i columns u d rnd scene XPos ZPos :
  Forall (fun m => mesh_receiveShadows m = true)
    (grid_columns rows i columns u d rnd scene XPos ZPos).
Proof.
  revert i u d. induction rows as [|rows IH]; intros i u d; [constructor|].
  cbn [grid_columns]. apply Forall_app. split; [apply line_columns_receive|apply IH].
Qed.

Lemma wf_casters_below (w : World) (g : uid) :
  wf w = true -> forallb (below (next_uid w)) (casters g w) = true.
Proof.
  unfold wf, casters, find_shadowGenerator. intros H. split_andb.
  destruct (find _ _) as [o|] eqn:E; [|reflexivity].
  apply find_some in E as [Hin _].
  rewrite forallb_forall in H4. apply H4 in Hin. now split_andb.
Qed.

Lemma count_occ_below (n u : uid) (l : list uid) :
  forallb (below n) l = true -> n <= u -> count_occ Nat.eq_dec l u = 0.
Proof.
  intros Hl Hu. apply count_occ_not_In. intros Hin.
  rewrite forallb_forall in Hl. apply Hl in Hin.
  unfold below in Hin. apply Nat.ltb_lt in Hin. lia.
Qed.

Lemma count_occ_seq (u k x : nat) : In x (seq u k) -> count_occ Nat.eq_dec (seq u k) x = 1.
Proof.
  intros Hin.
  pose proof (proj1 (NoDup_count_occ Nat.eq_dec (seq u k)) (seq_NoDup k u) x) as Hle.
  pose proof (proj1 (count_occ_In Nat.eq_dec (seq u k) x) Hin) as Hgt.
  lia.
Qed.

(** C6. With [shadowGenerator] assigned to the generator [g], running
    [createGround] over a layout of [N = rowCount * columnsPerRow] points
    (a negative count counts as none) returns normally, creates exactly [N]
    columns and makes the list of shadow casters of [g] longer by exactly
    [N]; every column it created is marked to receive shadows and occurs
    exactly once among the casters. *)
Theorem C6_casters_grow_by_layout_size (w : World) (g : uid) (rowCount columnsPerRow : Z)
    (originX originZ : number) (scene : uid) :
  shadowGenerator w = Some g -> wf w = true ->
  let w' := snd (createGround rowCount columnsPerRow originX originZ scene w) in
  let N := Z.to_nat rowCount * Z.to_nat columnsPerRow in
  fst (createGround rowCount columnsPerRow originX originZ scene w) = Normal tt
  /\ List.length (created_meshes w w') = N
  /\ List.length (casters g w') = List.length (casters g w) + N
  /\ forall m, In m (created_meshes w w') ->
       mesh_receiveShadows m = true
       /\ count_occ Nat.eq_dec (casters g w') (mesh_uid m) = 1.
Proof.
  intros Hg Hwf.
  destruct (createGround_defined w g rowCount columnsPerRow originX originZ scene Hg Hwf)
    as (w1 & E & (Hm & _ & _ & _ & _ & Hc & _)).
  rewrite E. cbn [fst snd].
  rewrite (created_meshes_app _ _ _ Hm), Hc.
  rewrite length_app, !length_map, grid_columns_length.
  split; [reflexivity|]. split; [reflexivity|]. split; [reflexivity|].
  intros m Hin. split.
  - pose proof (grid_columns_receive (Z.to_nat rowCount) 0%Z (Z.to_nat columnsPerRow)
                  (next_uid w) (random_draws w) (random_source w) scene originX originZ) as HF.
    rewrite Forall_forall in HF. now apply HF.
  - rewrite count_occ_app.
    apply (in_map mesh_uid) in Hin. rewrite grid_columns_uids in *.
    rewrite (count_occ_below (next_uid w)).
    + now rewrite count_occ_seq.
    + now apply wf_casters_below.
    + apply in_seq in Hin. lia.
Qed.

Lemma C6_casters_grow_by_layout_size_witness :
  let w' := snd (createGround 2 3 0 0 1 demo_world) in
  let N := Z.to_nat 2 * Z.to_nat 3 in
  fst (createGround 2 3 0 0 1 demo_world) = Normal tt
  /\ List.length (created_meshes demo_world w') = N
  /\ List.length (casters 4 w') = List.length (casters 4 demo_world) + N
  /\ forall m, In m (created_meshes demo_world w') ->
       mesh_receiveShadows m = true
       /\ count_occ Nat.eq_dec (casters 4 w') (mesh_uid m) = 1.
Proof.
  apply (C6_casters_grow_by_layout_size demo_world 4 2 3 0 0 1); reflexivity.
Defined.

(** ** Assembling the scene *)

Arguments Math_PI : simpl never.

Lemma update_fresh_le {A} (id_of : A -> uid) (n u : uid) (f : A -> A) (l : list A) :
  forallb (fun o => below n (id_of o)) l = true -> n <= u -> update id_of u f l = l.
Proof.
  intros H Hu. apply update_fresh. eapply forallb_weaken; [|exact H].
  intros o Ho. unfold below in *. apply Nat.ltb_lt in Ho. apply Nat.ltb_lt. lia.
Qed.

Lemma update_miss {A} (id_of : A -> uid) (n : uid) (f : A -> A) (o : A) :
  id_of o <> n -> update id_of n f [o] = [o].
Proof.
  intros E. unfold update. simpl.
  destruct (Nat.eqb_spec (id_of o) n); [contradiction|reflexivity].
Qed.

(** Reduces the fields of a world given by its fields, in the goal and in the
    hypotheses. *)
Ltac fields :=
  cbv beta iota zeta delta
    [next_uid engines scenes cameras lights shadowGenerators meshes materials textures
     shadowGenerator random_source random_draws renderLoops resizeListeners trace] in *.

(** Carries out the writes through references: a write to a fresh identity
    leaves the objects that were there alone, and reaches the new object. *)
Ltac settle_updates :=
  rewrite ?update_app;
  repeat match goal with
         | H : forallb (fun o => below ?n (?id o)) ?l = true
           |- context [update ?id ?u ?f ?l] =>
             rewrite (update_fresh_le id n u f l H) by lia
         end;
  repeat first [ rewrite update_hit by reflexivity
               | rewrite update_miss by (simpl; lia) ].

Ltac unfold_library :=
  unfold new_Engine, new_Scene, new_ArcRotateCamera, Camera_setTarget, Camera_attachControl,
    new_DirectionalLight, Light_set_position, new_ShadowGenerator, new_StandardMaterial,
    new_Texture, new_CubeTexture, Material_write, Mesh_write, Texture_set_coordinatesMode,
    MeshBuilder_CreateBox, MeshBuilder_CreateGroundFromHeightMap, new_mesh,
    Engine_runRenderLoop, window_addEventListener_resize.

(** The objects [createScene] builds; [n] is the identity of the scene. *)
Definition scene_camera (n canvas : uid) : Camera :=
  mkCamera (1 + n) n "camera" (- Math_PI / 2)%float (Math_PI / 2.5)%float 10
    Vector3_Zero (Some (canvas, false)).

Definition scene_light (n : uid) : Light :=
  mkLight (2 + n) n "dir01" (mkVector3 0 (-0.1) 0.1) (mkVector3 10 10 0).

Definition scene_shadowGenerator (n : uid) : ShadowGenerator :=
  mkShadowGenerator (3 + n) 1024 (2 + n) [].

Definition ground_material (u scene texture : uid) : Material :=
  mkMaterial u scene "ground" true (Some texture) None white
    (mkColor3 0.1 0.1 0.1) (mkColor3 1 1 1) (mkColor3 0.23 0.98 0.53).

Definition ground_texture (u scene : uid) : Texture :=
  mkTexture u scene (ImageTexture "/src/assets/map/bit_map.png") Texture_EXPLICIT_MODE.

Definition ground_mesh (u scene material : uid) : Mesh :=
  mkMesh u scene "12d3"
    (GroundFromHeightMap "/src/assets/map/height_map.png" 20 20 250 10 2)
    Vector3_Zero true (Some material).

Definition skybox_mesh (u scene material : uid) : Mesh :=
  mkMesh u scene "skyBox" (Box 1000) Vector3_Zero false (Some material).

Definition skybox_material (u scene texture : uid) : Material :=
  mkMaterial u scene "skyBox" false None (Some texture)
    (mkColor3 0 0 0) (mkColor3 0 0 0) black black.

Definition skybox_texture (u scene : uid) : Texture :=
  mkTexture u scene (CubeTexture "src/assets/map/skybox/skybox") Texture_SKYBOX_MODE.

(** The world after [createSkyBox(scene)]. *)
Definition skyBox_world (scene : uid) (w : World) : World :=
  let n := next_uid w in
  mkWorld (3 + n) (engines w) (scenes w) (cameras w) (lights w) (shadowGenerators w)
    (meshes w ++ [skybox_mesh n scene (1 + n)])
    (materials w ++ [skybox_material (1 + n) scene (2 + n)])
    (textures w ++ [skybox_texture (2 + n) scene])
    (shadowGenerator w) (random_source w) (random_draws w)
    (renderLoops w) (resizeListeners w)
    (trace w ++ [CreateBox n scene; NewStandardMaterial (1 + n) scene;
                 NewCubeTexture (2 + n) scene]).

(** The world after [createScene(engine, canvas)]. *)
Definition scene_world (engine canvas : uid) (w : World) : World :=
  let n := next_uid w in
  mkWorld (10 + n) (engines w)
    (scenes w ++ [mkScene n engine])
    (cameras w ++ [scene_camera n canvas])
    (lights w ++ [scene_light n])
    (shadowGenerators w ++ [scene_shadowGenerator n])
    (meshes w ++ [ground_mesh (6 + n) n (4 + n); skybox_mesh (7 + n) n (8 + n)])
    (materials w ++ [ground_material (4 + n) n (5 + n); skybox_material (8 + n) n (9 + n)])
    (textures w ++ [ground_texture (5 + n) n; skybox_texture (9 + n) n])
    (Some (3 + n)) (random_source w) (random_draws w)
    (renderLoops w) (resizeListeners w)
    (trace w ++ [NewScene n engine;
                 NewArcRotateCamera (1 + n) n; CameraSetTarget (1 + n);
                 CameraAttachControl (1 + n) canvas;
                 NewDirectionalLight (2 + n) n;
                 NewShadowGenerator (3 + n) 1024 (2 + n);
                 NewStandardMaterial (4 + n) n; NewTexture (5 + n) n;
                 CreateGroundFromHeightMap (6 + n) n;
                 CreateBox (7 + n) n; NewStandardMaterial (8 + n) n;
                 NewCubeTexture (9 + n) n]).

Lemma createSkyBox_world (w : World) (scene : uid) :
  wf w = true -> createSkyBox scene w = (Normal tt, skyBox_world scene w).
Proof.
  intros Hwf. unfold wf in Hwf. cbv zeta in Hwf. split_andb.
  unfold createSkyBox, skyBox_world. unfold_library.
  destruct w. fields. run. settle_updates.
  rewrite <- !app_assoc. reflexivity.
Qed.

Lemma createScene_world (w : World) (engine canvas : uid) :
  wf w = true ->
  createScene engine canvas w = (Normal (next_uid w), scene_world engine canvas w).
Proof.
  intros Hwf. unfold wf in Hwf. cbv zeta in Hwf. split_andb.
  unfold createScene, createRealGround, createSkyBox, scene_world. unfold_library.
  destruct w. fields. run. settle_updates.
  rewrite <- !app_assoc. reflexivity.
Qed.

(** The objects of a scene. *)
Definition cameras_of (s : uid) (w : World) : list Camera :=
  filter (fun o => Nat.eqb (camera_scene o) s) (cameras w).

Definition lights_of (s : uid) (w : World) : list Light :=
  filter (fun o => Nat.eqb (light_scene o) s) (lights w).

(** A shadow generator belongs to the scene of the light it is bound to. *)
Definition shadowGenerators_of (s : uid) (w : World) : list ShadowGenerator :=
  filter (fun o => existsb (fun l => Nat.eqb (light_uid l) (sg_light o)) (lights_of s w))
    (shadowGenerators w).

Definition meshes_of (s : uid) (w : World) : list Mesh :=
  filter (fun o => Nat.eqb (mesh_scene o) s) (meshes w).

Definition is_skyBox (m : Mesh) : bool :=
  match mesh_geometry m with
  | Box _ => String.eqb (mesh_name m) "skyBox"
  | _ => false
  end.

Definition is_heightmap_ground (m : Mesh) : bool :=
  match mesh_geometry m with
  | GroundFromHeightMap _ _ _ _ _ _ => true
  | _ => false
  end.

(** The calls a computation added to the trace. *)
Definition new_calls (w w' : World) : list Call :=
  skipn (List.length (trace w)) (trace w').

Lemma filter_fresh {A} (ref : A -> uid) (n u : uid) (l : list A) :
  forallb (fun o => below n (ref o)) l = true -> n <= u ->
  filter (fun o => Nat.eqb (ref o) u) l = [].
Proof.
  intros H Hu. induction l as [|o l IH]; simpl in *; [reflexivity|].
  apply andb_true_iff in H as [Ho Hl].
  unfold below in Ho. apply Nat.ltb_lt in Ho.
  destruct (Nat.eqb_spec (ref o) u); [lia|]. now apply IH.
Qed.

Lemma find_fresh_app {A} (id_of : A -> uid) (n u : uid) (l l' : list A) :
  forallb (fun o => below n (id_of o)) l = true -> n <= u ->
  find (fun o => Nat.eqb (id_of o) u) (l ++ l')
  = find (fun o => Nat.eqb (id_of o) u) l'.
Proof.
  intros H Hu. induction l as [|o l IH]; simpl in *; [reflexivity|].
  apply andb_true_iff in H as [Ho Hl].
  unfold below in Ho. apply Nat.ltb_lt in Ho.
  destruct (Nat.eqb_spec (id_of o) u); [lia|]. now apply IH.
Qed.

Lemma filter_bound_fresh (n : uid) (lt : Light) (l : list ShadowGenerator) :
  forallb (fun o => below n (sg_light o)) l = true -> n <= light_uid lt ->
  filter (fun o => existsb (fun x => Nat.eqb (light_uid x) (sg_light o)) [lt]) l = [].
Proof.
  intros H Hu. induction l as [|o l IH]; [reflexivity|].
  cbn [forallb] in H. apply andb_true_iff in H as [Ho Hl].
  unfold below in Ho. apply Nat.ltb_lt in Ho.
  cbn [filter existsb]. destruct (Nat.eqb_spec (light_uid lt) (sg_light o)); [lia|].
  now apply IH.
Qed.

Lemma new_calls_app (w w' : World) (l : list Call) :
  trace w' = trace w ++ l -> new_calls w w' = l.
Proof.
  intros E. unfold new_calls. rewrite E.
  rewrite skipn_app, skipn_all, Nat.sub_diag. reflexivity.
Qed.

(** C7. [createScene] builds, in this order, the scene, the camera (which it
    attaches to the canvas), the light, the shadow generator (of map size
    1024, bound to that light, which exists by then), the ground and the
    skybox; it returns the scene, and the scene then holds exactly one camera,
    one light, one shadow generator, one ground mesh and one skybox. *)
Theorem C7_createScene_order_and_contents (w : World) (engine canvas : uid) :
  wf w = true -> scoped w = true ->
  let s := next_uid w in
  let w' := snd (createScene engine canvas w) in
  fst (createScene engine canvas w) = Normal s
  /\ new_calls w w'
     = [NewScene s engine;
        NewArcRotateCamera (1 + s) s; CameraSetTarget (1 + s);
        CameraAttachControl (1 + s) canvas;
        NewDirectionalLight (2 + s) s;
        NewShadowGenerator (3 + s) 1024 (2 + s);
        NewStandardMaterial (4 + s) s; NewTexture (5 + s) s;
        CreateGroundFromHeightMap (6 + s) s;
        CreateBox (7 + s) s; NewStandardMaterial (8 + s) s; NewCubeTexture (9 + s) s]
  /\ cameras_of s w' = [scene_camera s canvas]
  /\ lights_of s w' = [scene_light s]
  /\ shadowGenerators_of s w' = [scene_shadowGenerator s]
  /\ shadowGenerator w' = Some (sg_uid (scene_shadowGenerator s))
  /\ filter is_heightmap_ground (meshes_of s w') = [ground_mesh (6 + s) s (4 + s)]
  /\ filter is_skyBox (meshes_of s w') = [skybox_mesh (7 + s) s (8 + s)].
Proof.
  intros Hwf Hsc s w'. subst w'. rewrite (createScene_world w engine canvas Hwf).
  cbn [fst snd]. subst s.
  unfold scoped in Hsc. cbv zeta in Hsc. split_andb.
  assert (Hl : lights_of (next_uid w) (scene_world engine canvas w)
               = [scene_light (next_uid w)]).
  { unfold lights_of, scene_world. fields. destruct w. fields.
    rewrite filter_app, (filter_fresh light_scene next_uid0) by (assumption || lia).
    simpl. now rewrite Nat.eqb_refl. }
  split; [reflexivity|]. split.
  { apply new_calls_app. destruct w. reflexivity. }
  split.
  { unfold cameras_of, scene_world. destruct w. fields.
    rewrite filter_app, (filter_fresh camera_scene next_uid0) by (assumption || lia).
    simpl. now rewrite Nat.eqb_refl. }
  split; [exact Hl|]. split.
  { unfold shadowGenerators_of. rewrite Hl. unfold scene_world. destruct w. fields.
    rewrite filter_app,
      (filter_bound_fresh next_uid0 (scene_light next_uid0)) by (assumption || (simpl; lia)).
    unfold scene_shadowGenerator, scene_light.
    cbn [app filter existsb sg_light light_uid]. now rewrite Nat.eqb_refl. }
  split; [destruct w; reflexivity|].
  unfold meshes_of, scene_world. destruct w. fields.
  rewrite filter_app, (filter_fresh mesh_scene next_uid0) by (assumption || lia).
  simpl. rewrite Nat.eqb_refl. split; reflexivity.
Qed.

Lemma C7_createScene_order_and_contents_witness :
  let s := next_uid demo_world in
  let w' := snd (createScene 0 7 demo_world) in
  fst (createScene 0 7 demo_world) = Normal s
  /\ new_calls demo_world w'
     = [NewScene s 0;
        NewArcRotateCamera (1 + s) s; CameraSetTarget (1 + s);
        CameraAttachControl (1 + s) 7;
        NewDirectionalLight (2 + s) s;
        NewShadowGenerator (3 + s) 1024 (2 + s);
        NewStandardMaterial (4 + s) s; NewTexture (5 + s) s;
        CreateGroundFromHeightMap (6 + s) s;
        CreateBox (7 + s) s; NewStandardMaterial (8 + s) s; NewCubeTexture (9 + s) s]
  /\ cameras_of s w' = [scene_camera s 7]
  /\ lights_of s w' = [scene_light s]
  /\ shadowGenerators_of s w' = [scene_shadowGenerator s]
  /\ shadowGenerator w' = Some (sg_uid (scene_shadowGenerator s))
  /\ filter is_heightmap_ground (meshes_of s w') = [ground_mesh (6 + s) s (4 + s)]
  /\ filter is_skyBox (meshes_of s w') = [skybox_mesh (7 + s) s (8 + s)].
Proof.
  apply (C7_createScene_order_and_contents demo_world 0 7); reflexivity.
Defined.

(** C8. The mesh [createSkyBox] creates is a box of size 1000; its material
    has back-face culling switched off, a cube texture as reflection texture
    whose coordinates mode is the skybox mode, and the diffuse and specular
    colours (0, 0, 0). *)
Theorem C8_skyBox_properties (w : World) (scene : uid) :
  wf w = true ->
  let w' := snd (createSkyBox scene w) in
  exists skybox skyboxMaterial reflectionTexture,
    created_meshes w w' = [skybox]
    /\ mesh_geometry skybox = Box 1000
    /\ mesh_material skybox = Some (material_uid skyboxMaterial)
    /\ find_material (material_uid skyboxMaterial) w' = Some skyboxMaterial
    /\ material_backFaceCulling skyboxMaterial = false
    /\ material_reflectionTexture skyboxMaterial = Some (texture_uid reflectionTexture)
    /\ find_texture (texture_uid reflectionTexture) w' = Some reflectionTexture
    /\ texture_source reflectionTexture = CubeTexture "src/assets/map/skybox/skybox"
    /\ texture_coordinatesMode reflectionTexture = Texture_SKYBOX_MODE
    /\ material_diffuseColor skyboxMaterial = mkColor3 0 0 0
    /\ material_specularColor skyboxMaterial = mkColor3 0 0 0.
Proof.
  intros Hwf w'. subst w'. rewrite (createSkyBox_world w scene Hwf). cbn [snd].
  unfold wf in Hwf. cbv zeta in Hwf. split_andb.
  exists (skybox_mesh (next_uid w) scene (1 + next_uid w)),
         (skybox_material (1 + next_uid w) scene (2 + next_uid w)),
         (skybox_texture (2 + next_uid w) scene).
  split.
  { apply created_meshes_app. destruct w. reflexivity. }
  do 2 (split; [reflexivity|]). split.
  { unfold find_material, skyBox_world. destruct w. fields.
    rewrite (find_fresh_app material_uid next_uid0) by (assumption || (simpl; lia)).
    simpl. now rewrite Nat.eqb_refl. }
  do 2 (split; [reflexivity|]). split.
  { unfold find_texture, skyBox_world. destruct w. fields.
    rewrite (find_fresh_app texture_uid next_uid0) by (assumption || (simpl; lia)).
    simpl. now rewrite Nat.eqb_refl. }
  repeat split.
Qed.

Lemma C8_skyBox_properties_witness :
  let w' := snd (createSkyBox 1 demo_world) in
  exists skybox skyboxMaterial reflectionTexture,
    created_meshes demo_world w' = [skybox]
    /\ mesh_geometry skybox = Box 1000
    /\ mesh_material skybox = Some (material_uid skyboxMaterial)
    /\ find_material (material_uid skyboxMaterial) w' = Some skyboxMaterial
    /\ material_backFaceCulling skyboxMaterial = false
    /\ material_reflectionTexture skyboxMaterial = Some (texture_uid reflectionTexture)
    /\ find_texture (texture_uid reflectionTexture) w' = Some reflectionTexture
    /\ texture_source reflectionTexture = CubeTexture "src/assets/map/skybox/skybox"
    /\ texture_coordinatesMode reflectionTexture = Texture_SKYBOX_MODE
    /\ material_diffuseColor skyboxMaterial = mkColor3 0 0 0
    /\ material_specularColor skyboxMaterial = mkColor3 0 0 0.
Proof.
  apply (C8_skyBox_properties demo_world 1). reflexivity.
Defined.

(** ** Starting the view, and the events that follow *)

(** The world after [new BABYLON.Engine(canvas, true, {...})]. *)
Definition engine_world (canvas : uid) (w : World) : World :=
  mkWorld (1 + next_uid w) (engines w ++ [mkEngine (next_uid w) canvas true true true])
    (scenes w) (cameras w) (lights w) (shadowGenerators w) (meshes w) (materials w)
    (textures w) (shadowGenerator w) (random_source w) (random_draws w)
    (renderLoops w) (resizeListeners w) (trace w ++ [NewEngine (next_uid w) canvas]).

(** The world after [Init(canvas)]: the engine [e] is the first object it
    allocates, the scene the second. *)
Definition init_world (canvas : uid) (w : World) : World :=
  let e := next_uid w in
  let w2 := scene_world e canvas (engine_world canvas w) in
  set_trace (trace w2 ++ [RunRenderLoop e; AddResizeListener])
    (set_resizeListeners (resizeListeners w ++ [ResizeEngine e])
       (set_renderLoops (renderLoops w ++ [(e, RenderScene (1 + e))]) w2)).

Lemma wf_engine_world (w : World) (canvas : uid) :
  wf w = true -> wf (engine_world canvas w) = true.
Proof.
  unfold wf, engine_world. destruct w. fields. intros H. split_andb.
  repeat (apply andb_true_iff; split);
    try (eapply forallb_weaken; [|eassumption]; intros o; apply below_S);
    try assumption.
  - rewrite forallb_app. apply andb_true_iff. split.
    + eapply forallb_weaken; [|eassumption]. intros o. apply below_S.
    + simpl. now rewrite below_self.
  - eapply forallb_weaken; [|eassumption]. intros o Ho. cbv beta in Ho. split_andb.
    apply andb_true_iff. split; [now apply below_S|].
    eapply forallb_weaken; [|eassumption]. intros u. apply below_S.
Qed.

Lemma Init_world (w : World) (canvas : uid) :
  wf w = true -> Init canvas w = (Normal tt, init_world canvas w).
Proof.
  intros Hwf. pose proof (wf_engine_world w canvas Hwf) as Hwf1.
  unfold Init. unfold bind at 1.
  replace (new_Engine canvas true true true w)
    with (Normal (next_uid w), engine_world canvas w)
    by (destruct w; reflexivity).
  unfold bind at 1. rewrite (createScene_world _ _ _ Hwf1).
  unfold init_world, scene_world, engine_world, Engine_runRenderLoop,
    window_addEventListener_resize.
  destruct w. run. rewrite <- !app_assoc. reflexivity.
Qed.

(** The call a callback makes when the host runs it. *)
Definition callback_call (cb : Callback) : Call :=
  match cb with
  | RenderScene scene => SceneRender scene
  | ResizeEngine engine => EngineResize engine
  end.

(** The callbacks an event runs. *)
Definition listeners (ev : HostEvent) (w : World) : list Callback :=
  match ev with
  | AnimationFrame => map snd (renderLoops w)
  | WindowResize => resizeListeners w
  end.

Lemma run_callbacks_trace (cbs : list Callback) :
  forall w, run_callbacks cbs w
            = (Normal tt, set_trace (trace w ++ map callback_call cbs) w).
Proof.
  induction cbs as [|cb cbs IH]; intros w.
  - simpl. rewrite app_nil_r. destruct w; reflexivity.
  - cbn [run_callbacks map]. unfold bind.
    replace (run_callback cb w)
      with (Normal tt, set_trace (trace w ++ [callback_call cb]) w)
      by (destruct cb; reflexivity).
    rewrite IH. destruct w. run. now rewrite <- app_assoc.
Qed.

Lemma dispatch_all_trace (evs : list HostEvent) :
  forall w, dispatch_all evs w
            = (Normal tt,
               set_trace (trace w ++ flat_map (fun ev => map callback_call (listeners ev w)) evs)
                 w).
Proof.
  induction evs as [|ev evs IH]; intros w.
  - simpl. rewrite app_nil_r. destruct w; reflexivity.
  - cbn [dispatch_all flat_map]. unfold bind.
    replace (dispatch ev w) with (run_callbacks (listeners ev w) w)
      by (destruct ev; reflexivity).
    rewrite run_callbacks_trace, IH.
    destruct w, ev; run; cbn [listeners renderLoops resizeListeners];
      now rewrite <- app_assoc.
Qed.

(** The calls that concern the engine [e] and the scene [s]. *)
Definition concerns (e s : uid) (c : Call) : bool :=
  match c with
  | SceneRender s' => Nat.eqb s' s
  | EngineResize e' => Nat.eqb e' e
  | _ => false
  end.

(** What the host's events ask of the view that [Init] started: one
    [scene.render()] for a frame, one [engine.resize()] for a resize. *)
Definition expected_call (e s : uid) (ev : HostEvent) : Call :=
  match ev with
  | AnimationFrame => SceneRender s
  | WindowResize => EngineResize e
  end.

Lemma old_callbacks_silent (n e s : uid) (cbs : list Callback) :
  forallb (callback_below n) cbs = true -> n <= e -> n <= s ->
  filter (concerns e s) (map callback_call cbs) = [].
Proof.
  intros H He Hs. induction cbs as [|cb cbs IH]; [reflexivity|].
  cbn [forallb] in H. apply andb_true_iff in H as [Hcb Hl].
  cbn [map filter]. rewrite (IH Hl).
  destruct cb as [s'|e']; unfold callback_below, below in Hcb; apply Nat.ltb_lt in Hcb;
    cbn [callback_call concerns].
  - destruct (Nat.eqb_spec s' s); [lia|reflexivity].
  - destruct (Nat.eqb_spec e' e); [lia|reflexivity].
Qed.

(** C9. After [Init] has run, the host may deliver any sequence of animation
    frames and resize notifications: none of them fails, each resize
    notification makes exactly one call [engine.resize()] on the engine of
    this view and each frame exactly one call [scene.render()] on its scene,
    in the order of the events, and the render loop and the resize listener
    stay registered throughout. *)
Theorem C9_one_resize_per_notification (w : World) (canvas : uid) (evs : list HostEvent) :
  wf w = true -> scoped w = true ->
  let e := next_uid w in
  let s := 1 + e in
  let w1 := snd (Init canvas w) in
  let r := dispatch_all evs w1 in
  fst (Init canvas w) = Normal tt
  /\ fst r = Normal tt
  /\ filter (concerns e s) (new_calls w1 (snd r)) = map (expected_call e s) evs
  /\ renderLoops (snd r) = renderLoops w ++ [(e, RenderScene s)]
  /\ resizeListeners (snd r) = resizeListeners w ++ [ResizeEngine e].
Proof.
  intros Hwf Hsc e s w1 r. subst r w1.
  rewrite (Init_world w canvas Hwf). cbn [fst snd].
  rewrite dispatch_all_trace. cbn [fst snd].
  split; [reflexivity|]. split; [reflexivity|].
  unfold scoped in Hsc. cbv zeta in Hsc. split_andb.
  split; [|destruct w; split; reflexivity].
  rewrite (new_calls_app _ _ (flat_map (fun ev => map callback_call
                                          (listeners ev (init_world canvas w))) evs))
    by (destruct (init_world canvas w); reflexivity).
  induction evs as [|ev evs IH]; [reflexivity|].
  cbn [flat_map map]. rewrite filter_app, IH. clear IH.
  change (expected_call e s ev :: map (expected_call e s) evs)
    with ([expected_call e s ev] ++ map (expected_call e s) evs).
  f_equal. subst e s. destruct w. fields. destruct ev; cbn [listeners].
  - assert (Hold : forallb (callback_below next_uid0) (map snd renderLoops0) = true).
    { rewrite forallb_forall. intros cb Hin.
      apply in_map_iff in Hin as ([u cb'] & <- & Hin).
      match goal with
      | H : forallb _ renderLoops0 = true |- _ =>
          rewrite forallb_forall in H; apply H in Hin
      end.
      cbn [fst snd] in Hin. now split_andb. }
    unfold init_world. run.
    rewrite !map_app, filter_app.
    rewrite (old_callbacks_silent next_uid0) by (assumption || lia).
    cbn. now rewrite Nat.eqb_refl.
  - unfold init_world. run.
    rewrite !map_app, filter_app.
    rewrite (old_callbacks_silent next_uid0) by (assumption || lia).
    cbn. now rewrite Nat.eqb_refl.
Qed.

Lemma C9_one_resize_per_notification_witness :
  let evs := [AnimationFrame; WindowResize; AnimationFrame; WindowResize; WindowResize] in
  let e := next_uid demo_world in
  let s := 1 + e in
  let w1 := snd (Init 7 demo_world) in
  let r := dispatch_all evs w1 in
  fst (Init 7 demo_world) = Normal tt
  /\ fst r = Normal tt
  /\ filter (concerns e s) (new_calls w1 (snd r)) = map (expected_call e s) evs
  /\ renderLoops (snd r) = renderLoops demo_world ++ [(e, RenderScene s)]
  /\ resizeListeners (snd r) = resizeListeners demo_world ++ [ResizeEngine e].
Proof.
  apply (C9_one_resize_per_notification demo_world 7); reflexivity.
Defined.

(** ** The closure variable [shadowGenerator] *)

Lemma createGroundObject_throws (w : World) (x z height : number) (scene : uid) :
  shadowGenerator w = None ->
  exists w', createGroundObject x z height scene w
             = (Throw (TypeError "shadowGenerator is undefined"), w').
Proof.
  intros Hg. pose proof (createGroundObject_undefined w x z height scene Hg) as H.
  destruct (createGroundObject x z height scene w) as [r w'].
  exists w'. simpl in H. now subst r.
Qed.

Lemma createGroundLine_undefined (w : World) (length : Z) (x z : number) (scene : uid) :
  shadowGenerator w = None -> (0 < length)%Z ->
  fst (createGroundLine length x z scene w)
  = Throw (TypeError "shadowGenerator is undefined").
Proof.
  intros Hg Hl. unfold createGroundLine, for_lt.
  destruct (Z.to_nat length) as [|k] eqn:E; [lia|].
  cbn [for_from]. unfold bind at 1 2 3. unfold Math_random.
  destruct (createGroundObject_throws
              (set_random_draws (S (random_draws w)) w) x z
              (random_source w (random_draws w) / 2 + 0.5)%float scene)
    as [w' Hw']; [destruct w; exact Hg|].
  unfold bind at 1. rewrite Hw'. reflexivity.
Qed.

Lemma createGround_undefined (w : World) (size_x size_z : Z) (XPos ZPos : number)
    (scene : uid) :
  shadowGenerator w = None -> (0 < size_x)%Z -> (0 < size_z)%Z ->
  fst (createGround size_x size_z XPos ZPos scene w)
  = Throw (TypeError "shadowGenerator is undefined").
Proof.
  intros Hg Hx Hz. unfold createGround, for_lt.
  destruct (Z.to_nat size_x) as [|k] eqn:E; [lia|].
  cbn [for_from]. unfold bind at 1.
  replace (if (Z.rem 0 2 =? 0)%Z
           then createGroundLine size_z (XPos + of_int 0 * 0.75)%float (ZPos + 0.5)%float scene
           else createGroundLine size_z (XPos + of_int 0 * 0.75)%float ZPos scene)
    with (createGroundLine size_z (XPos + of_int 0 * 0.75)%float (ZPos + 0.5)%float scene)
    by reflexivity.
  pose proof (createGroundLine_undefined w size_z (XPos + of_int 0 * 0.75)%float
                (ZPos + 0.5)%float scene Hg Hz) as H.
  destruct (createGroundLine size_z _ _ scene w) as [r w'].
  simpl in H. subst r. reflexivity.
Qed.

Lemma below_le (n m u : uid) : n <= m -> below n u = true -> below m u = true.
Proof. unfold below. intros Hnm H. apply Nat.ltb_lt in H. apply Nat.ltb_lt. lia. Qed.

Lemma below_lt (n u : uid) : u < n -> below n u = true.
Proof. unfold below. intros H. now apply Nat.ltb_lt. Qed.

Lemma forallb_below_le {A} (id_of : A -> uid) (n m : uid) (l : list A) :
  n <= m ->
  forallb (fun o => below n (id_of o)) l = true ->
  forallb (fun o => below m (id_of o)) l = true.
Proof. intros Hnm. apply forallb_weaken. intros o. now apply below_le. Qed.

Lemma wf_scene_world (w : World) (engine canvas : uid) :
  wf w = true -> wf (scene_world engine canvas w) = true.
Proof.
  unfold wf, scene_world. destruct w. fields. intros H. split_andb.
  repeat (apply andb_true_iff; split);
    rewrite ?forallb_app; try (apply andb_true_iff; split);
    try (eapply forallb_below_le; [|eassumption]; lia);
    try (cbn [forallb]; repeat (apply andb_true_iff; split);
         try reflexivity; apply below_lt; cbn; lia).
  - eapply forallb_weaken; [|eassumption]. intros o Ho. cbv beta in Ho. split_andb.
    apply andb_true_iff. split.
    + eapply below_le; [|eassumption]. lia.
    + eapply forallb_weaken; [|eassumption]. intros u. apply below_le. lia.
  - rewrite existsb_app. apply orb_true_iff. right.
    cbn [existsb scene_shadowGenerator sg_uid]. now rewrite Nat.eqb_refl.
Qed.

(** The calls that build a column. *)
Definition is_CreateCylinder (c : Call) : bool :=
  match c with
  | CreateCylinder _ _ => true
  | _ => false
  end.

(** C10. [createGroundObject] reads the closure variable [shadowGenerator].
    [createScene] assigns it (to the generator it has just built) and builds
    no column itself, so every column built after [createScene] finds the
    variable assigned: [createGroundObject], and [createGround] with any
    counts, then return normally.  While the variable is still [undefined],
    as in the world the composable starts in, [createGroundObject] fails with
    a [TypeError] at the registration of the shadow caster, and so does every
    call of [createGroundLine] or [createGround] that reaches a column. *)
Theorem C10_shadowGenerator_assigned_by_createScene (w : World) (engine canvas : uid) :
  wf w = true ->
  let w' := snd (createScene engine canvas w) in
  (exists g, shadowGenerator w' = Some g /\ find_shadowGenerator g w' <> None)
  /\ filter is_CreateCylinder (new_calls w w') = []
  /\ (forall x z height scene,
        fst (createGroundObject x z height scene w') = Normal tt)
  /\ (forall size_x size_z XPos ZPos scene,
        fst (createGround size_x size_z XPos ZPos scene w') = Normal tt)
  /\ (forall rnd, shadowGenerator (empty_world rnd) = None)
  /\ (forall w0 x z height scene,
        shadowGenerator w0 = None ->
        fst (createGroundObject x z height scene w0)
        = Throw (TypeError "shadowGenerator is undefined"))
  /\ (forall w0 length XPos ZPos scene,
        shadowGenerator w0 = None -> (0 < length)%Z ->
        fst (createGroundLine length XPos ZPos scene w0)
        = Throw (TypeError "shadowGenerator is undefined"))
  /\ (forall w0 size_x size_z XPos ZPos scene,
        shadowGenerator w0 = None -> (0 < size_x)%Z -> (0 < size_z)%Z ->
        fst (createGround size_x size_z XPos ZPos scene w0)
        = Throw (TypeError "shadowGenerator is undefined")).
Proof.
  intros Hwf w'. subst w'. rewrite (createScene_world w engine canvas Hwf). cbn [snd].
  assert (Hg : shadowGenerator (scene_world engine canvas w) = Some (3 + next_uid w))
    by (destruct w; reflexivity).
  pose proof (wf_scene_world w engine canvas Hwf) as Hwf'.
  split.
  { exists (3 + next_uid w). split; [exact Hg|].
    unfold wf in Hwf'. apply andb_true_iff in Hwf' as [_ He]. rewrite Hg in He.
    destruct (existsb_find _ _ He) as [o Ho].
    unfold find_shadowGenerator. rewrite Ho. discriminate. }
  split.
  { rewrite (new_calls_app _ _ _ (eq_refl : trace (scene_world engine canvas w) = _)).
    reflexivity. }
  split.
  { intros x z h scene.
    now rewrite (createGroundObject_defined _ (3 + next_uid w)). }
  split.
  { intros size_x size_z XPos ZPos scene.
    destruct (createGround_defined (scene_world engine canvas w) (3 + next_uid w)
                size_x size_z XPos ZPos scene Hg Hwf') as (w2 & E & _).
    now rewrite E. }
  split; [reflexivity|].
  split; [exact createGroundObject_undefined|].
  split; [exact createGroundLine_undefined|exact createGround_undefined].
Qed.

Lemma C10_shadowGenerator_assigned_by_createScene_witness :
  let w := empty_world (fun _ => 0.25%float) in
  let w' := snd (createScene 0 7 w) in
  (exists g, shadowGenerator w' = Some g /\ find_shadowGenerator g w' <> None)
  /\ filter is_CreateCylinder (new_calls w w') = []
  /\ (forall x z height scene,
        fst (createGroundObject x z height scene w') = Normal tt)
  /\ (forall size_x size_z XPos ZPos scene,
        fst (createGround size_x size_z XPos ZPos scene w') = Normal tt)
  /\ (forall rnd, shadowGenerator (empty_world rnd) = None)
  /\ (forall w0 x z height scene,
        shadowGenerator w0 = None ->
        fst (createGroundObject x z height scene w0)
        = Throw (TypeError "shadowGenerator is undefined"))
  /\ (forall w0 length XPos ZPos scene,
        shadowGenerator w0 = None -> (0 < length)%Z ->
        fst (createGroundLine length XPos ZPos scene w0)
        = Throw (TypeError "shadowGenerator is undefined"))
  /\ (forall w0 size_x size_z XPos ZPos scene,
        shadowGenerator w0 = None -> (0 < size_x)%Z -> (0 < size_z)%Z ->
        fst (createGround size_x size_z XPos ZPos scene w0)
        = Throw (TypeError "shadowGenerator is undefined")).
Proof.
  apply (C10_shadowGenerator_assigned_by_createScene (empty_world (fun _ => 0.25%float)) 0 7).
  reflexivity.
Defined.

(** ** Double-precision arithmetic of the column height

    [Math.random() / 2 + 0.5] is computed in binary64.  The lemmas below follow
    the two roundings through the specification of the primitive floats
    ([SpecFloat]): how many binary digits a mantissa has, what shifting it
    right does, and between which powers of two a rounded result lies. *)

Module Binary64.

Local Open Scope Z_scope.

Lemma Zdigits2_log2 (m : Z) : 0 < m -> Zdigits2 m = Z.log2 m + 1.
Proof.
  destruct m as [|p|p]; try lia. intros _.
  unfold Zdigits2.
  induction p as [p IH|p IH|].
  - simpl digits2_pos. rewrite Pos2Z.inj_succ, IH.
    destruct p; simpl; lia.
  - simpl digits2_pos. rewrite Pos2Z.inj_succ, IH.
    destruct p; simpl; lia.
  - reflexivity.
Qed.

Lemma Zdigits2_nonneg (m : Z) : 0 <= m -> 0 <= Zdigits2 m.
Proof. destruct m; simpl; lia. Qed.

Lemma Zdigits2_pos (m : Z) : 0 < m -> 0 < Zdigits2 m.
Proof. destruct m; simpl; lia. Qed.

Lemma Zdigits2_bounds (m : Z) :
  0 < m -> 2 ^ (Zdigits2 m - 1) <= m < 2 ^ Zdigits2 m.
Proof.
  intros Hm. rewrite Zdigits2_log2 by exact Hm.
  replace (Z.log2 m + 1 - 1) with (Z.log2 m) by lia.
  replace (Z.log2 m + 1) with (Z.succ (Z.log2 m)) by lia.
  now apply Z.log2_spec.
Qed.

Lemma Zdigits2_unique (m d : Z) :
  2 ^ (d - 1) <= m < 2 ^ d -> 1 <= d -> Zdigits2 m = d.
Proof.
  intros H Hd.
  assert (0 < m) by (pose proof (Z.pow_pos_nonneg 2 (d - 1)); lia).
  rewrite Zdigits2_log2 by assumption.
  rewrite (Z.log2_unique m (d - 1)); try lia.
  replace (Z.succ (d - 1)) with d by lia. exact H.
Qed.

Lemma Zdigits2_pow2 (a : Z) : 0 <= a -> Zdigits2 (2 ^ a) = a + 1.
Proof.
  intros Ha. rewrite Zdigits2_log2 by (apply Z.pow_pos_nonneg; lia).
  now rewrite Z.log2_pow2.
Qed.

Lemma Zdigits2_shift (m k : Z) :
  0 < m -> 0 <= k ->
  Zdigits2 (m / 2 ^ k) = if k <? Zdigits2 m then Zdigits2 m - k else 0.
Proof.
  intros Hm Hk. pose proof (Zdigits2_bounds m Hm) as [Hlo Hhi].
  pose proof (Zdigits2_pos m Hm) as Hd.
  destruct (Z.ltb_spec k (Zdigits2 m)) as [Hlt|Hge].
  - apply Zdigits2_unique; [|lia]. split.
    + apply Z.div_le_lower_bound; [apply Z.pow_pos_nonneg; lia|].
      rewrite <- Z.pow_add_r by lia.
      replace (k + (Zdigits2 m - k - 1)) with (Zdigits2 m - 1) by lia. exact Hlo.
    + apply Z.div_lt_upper_bound; [apply Z.pow_pos_nonneg; lia|].
      rewrite <- Z.pow_add_r by lia.
      replace (k + (Zdigits2 m - k)) with (Zdigits2 m) by lia. exact Hhi.
  - rewrite Z.div_small; [reflexivity|]. split; [lia|].
    eapply Z.lt_le_trans; [exact Hhi|]. apply Z.pow_le_mono_r; lia.
Qed.

Lemma Zdigits2_succ (m : Z) :
  0 <= m ->
  Zdigits2 (m + 1) = Zdigits2 m
  \/ (m + 1 = 2 ^ Zdigits2 m /\ Zdigits2 (m + 1) = Zdigits2 m + 1).
Proof.
  intros Hm. destruct (Z.eq_dec m 0) as [->|Hne]; [right; split; reflexivity|].
  assert (H0 : 0 < m) by lia.
  pose proof (Zdigits2_bounds m H0) as [Hlo Hhi].
  pose proof (Zdigits2_pos m H0) as Hd.
  destruct (Z.eq_dec (m + 1) (2 ^ Zdigits2 m)) as [E|N].
  - right. split; [exact E|]. rewrite E. apply Zdigits2_pow2. lia.
  - left. apply Zdigits2_unique; lia.
Qed.

(** shifting *)
Lemma shr_1_m (mrs : shr_record) :
  0 <= shr_m mrs -> shr_m (shr_1 mrs) = shr_m mrs / 2.
Proof.
  destruct mrs as [m r s]. simpl. intros Hm.
  destruct m as [|p|p]; [reflexivity| |lia].
  destruct p as [p|p|]; simpl shr_m.
  - rewrite Pos2Z.inj_xI. apply (Z.div_unique _ _ _ 1); lia.
  - rewrite Pos2Z.inj_xO. apply (Z.div_unique _ _ _ 0); lia.
  - reflexivity.
Qed.

Lemma pow2_xI (p : positive) : 2 ^ Z.pos p~1 = 2 * (2 ^ Z.pos p * 2 ^ Z.pos p).
Proof.
  rewrite <- Z.pow_add_r by lia. rewrite <- (Z.pow_succ_r 2) by lia. f_equal. lia.
Qed.

Lemma pow2_xO (p : positive) : 2 ^ Z.pos p~0 = 2 ^ Z.pos p * 2 ^ Z.pos p.
Proof. rewrite <- Z.pow_add_r by lia. f_equal. lia. Qed.

Lemma iter_pos_shr_m (p : positive) :
  forall mrs, 0 <= shr_m mrs ->
    shr_m (iter_pos shr_1 p mrs) = shr_m mrs / 2 ^ Zpos p.
Proof.
  assert (Hnn : forall q mrs, 
             (forall mrs, 0 <= shr_m mrs -> shr_m (iter_pos shr_1 q mrs) = shr_m mrs / 2 ^ Zpos q) ->
             0 <= shr_m mrs -> 0 <= shr_m (iter_pos shr_1 q mrs)).
  { intros q mrs Hq H. rewrite Hq by exact H. apply Z.div_pos; [exact H|]. apply Z.pow_pos_nonneg; lia. }
  assert (H1 : forall mrs, 0 <= shr_m mrs -> 0 <= shr_m (shr_1 mrs)).
  { intros mrs H. rewrite shr_1_m by exact H. apply Z.div_pos; lia. }
  induction p as [p IH|p IH|]; intros mrs Hm; simpl iter_pos.
  - rewrite IH by (apply Hnn; auto). rewrite IH by auto. rewrite shr_1_m by exact Hm.
    rewrite pow2_xI.
    rewrite !Z.div_div by (try apply Z.pow_pos_nonneg; lia).
    f_equal; lia.
  - rewrite IH by (apply Hnn; auto). rewrite IH by auto.
    rewrite pow2_xO.
    rewrite !Z.div_div by (try apply Z.pow_pos_nonneg; lia).
    reflexivity.
  - rewrite shr_1_m by exact Hm. reflexivity.
Qed.

Lemma shr_m_record_of_loc (m : Z) (l : location) : shr_m (shr_record_of_loc m l) = m.
Proof. destruct l as [|[]]; reflexivity. Qed.

Lemma fexp_eq (e : Z) : fexp prec emax e = Z.max (e - 53) (-1074).
Proof. reflexivity. Qed.

(** [shr_fexp]: the mantissa is divided by a power of two, the exponent grows accordingly *)
Lemma shr_fexp_spec (m e : Z) (l : location) :
  0 <= m ->
  let k := fexp prec emax (Zdigits2 m + e) - e in
  let '(mrs, e') := shr_fexp prec emax m e l in
  if 0 <? k then shr_m mrs = m / 2 ^ k /\ e' = e + k
  else shr_m mrs = m /\ e' = e.
Proof.
  intros Hm k. unfold shr_fexp. fold k. unfold shr.
  destruct k as [|p|p] eqn:E.
  - simpl. now rewrite shr_m_record_of_loc.
  - replace (0 <? Z.pos p) with true by (symmetry; apply Z.ltb_lt; lia).
    rewrite iter_pos_shr_m by (rewrite shr_m_record_of_loc; exact Hm).
    now rewrite shr_m_record_of_loc.
  - simpl. now rewrite shr_m_record_of_loc.
Qed.

Lemma round_nearest_even_cases (m : Z) (l : location) :
  round_nearest_even m l = m \/ round_nearest_even m l = m + 1.
Proof. destruct l as [|[]]; simpl; auto. destruct (Z.even m); auto. Qed.

Lemma pow2_div (a k : Z) : 0 <= k <= a -> 2 ^ a / 2 ^ k = 2 ^ (a - k).
Proof.
  intros H. replace a with ((a - k) + k) at 1 by lia.
  rewrite Z.pow_add_r by lia. apply Z.div_mul.
  pose proof (Z.pow_pos_nonneg 2 k). lia.
Qed.

Inductive rounded (mag : Z) : spec_float -> Prop :=
| rounded_zero : mag <= -1074 -> rounded mag (S754_zero false)
| rounded_same (m : positive) (e : Z) :
    Zdigits2 (Zpos m) + e = mag -> rounded mag (S754_finite false m e)
| rounded_up (m : positive) (e : Z) :
    Zpos m = 2 ^ (Zdigits2 (Zpos m) - 1) -> Zdigits2 (Zpos m) + e = mag + 1 ->
    rounded mag (S754_finite false m e)
| rounded_min : mag <= -1074 -> rounded mag (S754_finite false 1 (-1074)).

Lemma finish_round (mag m3 e3 : Z) :
  0 < m3 -> e3 <= 971 ->
  (Zdigits2 m3 + e3 = mag
   \/ (m3 = 2 ^ (Zdigits2 m3 - 1) /\ Zdigits2 m3 + e3 = mag + 1)) ->
  rounded mag
    match m3 with
    | 0 => S754_zero false
    | Z.pos m => if e3 <=? 971 then S754_finite false m e3 else S754_infinity false
    | Z.neg _ => S754_nan
    end.
Proof.
  intros Hm He H. destruct m3 as [|m|m]; try lia.
  replace (e3 <=? 971) with true by (symmetry; apply Z.leb_le; lia).
  destruct H as [H|[H1 H2]]; [now apply rounded_same|now apply rounded_up].
Qed.

Lemma binary_round_aux_rounded (mx ex : Z) (lx : location) :
  0 < mx -> ex <= 900 -> Zdigits2 mx + ex <= 1000 ->
  rounded (Zdigits2 mx + ex) (binary_round_aux prec emax false mx ex lx).
Proof.
  intros Hmx Hex Hmag. unfold binary_round_aux.
  pose proof (shr_fexp_spec mx ex lx (Z.lt_le_incl _ _ Hmx)) as H1.
  destruct (shr_fexp prec emax mx ex lx) as [mrs1 e1]. cbv zeta in H1.
  set (d := Zdigits2 mx) in *.
  pose proof (Zdigits2_pos mx Hmx) as Hd. fold d in Hd.
  rewrite fexp_eq in H1.
  set (m2 := round_nearest_even (shr_m mrs1) (loc_of_shr_record mrs1)).
  assert (Hm2 : m2 = shr_m mrs1 \/ m2 = shr_m mrs1 + 1) by apply round_nearest_even_cases.
  assert (Hm1 : 0 <= shr_m mrs1).
  { destruct (Z.ltb_spec 0 (Z.max (d + ex - 53) (-1074) - ex)); destruct H1 as [-> _];
      [|lia].
    apply Z.div_pos; [lia|]. apply Z.pow_pos_nonneg; lia. }
  assert (Hm2n : 0 <= m2) by lia.
  pose proof (shr_fexp_spec m2 e1 loc_Exact Hm2n) as H2.
  destruct (shr_fexp prec emax m2 e1 loc_Exact) as [mrs2 e2]. cbv zeta in H2.
  rewrite fexp_eq in H2.
  change (emax - prec) with 971.
  pose proof (Zdigits2_succ (shr_m mrs1) Hm1) as Hsucc.
  destruct (Z.ltb_spec 0 (Z.max (d + ex - 53) (-1074) - ex)) as [Hk|Hk];
    destruct H1 as [E1 Ee1].
  - (* a shift took place *)
    pose proof (Zdigits2_shift mx (Z.max (d + ex - 53) (-1074) - ex) Hmx ltac:(lia)) as Hsh.
    fold d in Hsh. rewrite <- E1 in Hsh.
    destruct (Z.ltb_spec (Z.max (d + ex - 53) (-1074) - ex) d) as [Hkd|Hkd].
    + (* some digits remain *)
      assert (Hm1p : 0 < shr_m mrs1) by (destruct (shr_m mrs1); simpl in Hsh; lia).
      destruct Hm2 as [Em2|Em2].
      * rewrite Em2 in *.
        destruct (Z.ltb_spec 0 (Z.max (Zdigits2 (shr_m mrs1) + e1 - 53) (-1074) - e1));
          [lia|]. destruct H2 as [-> ->].
        apply finish_round; [lia|lia|]. left. lia.
      * rewrite Em2 in *. destruct Hsucc as [Hs|[Hp Hs]].
        -- rewrite Hs in *.
           destruct (Z.ltb_spec 0 (Z.max (Zdigits2 (shr_m mrs1) + e1 - 53) (-1074) - e1));
             [lia|]. destruct H2 as [-> ->].
           apply finish_round; [lia|lia|]. left. lia.
        -- rewrite Hs in *.
           destruct (Z.ltb_spec 0 (Z.max (Zdigits2 (shr_m mrs1) + 1 + e1 - 53) (-1074) - e1))
             as [Hk2|Hk2]; destruct H2 as [-> ->].
           ++ assert (Ek2 : Z.max (Zdigits2 (shr_m mrs1) + 1 + e1 - 53) (-1074) - e1 = 1) by lia.
              rewrite Ek2, Hp. rewrite pow2_div by lia.
              apply finish_round.
              ** apply Z.pow_pos_nonneg; lia.
              ** lia.
              ** right. rewrite Zdigits2_pow2 by lia. split; [f_equal; lia|lia].
           ++ apply finish_round; [lia|lia|]. right. rewrite Hs. split; [|lia].
              rewrite Hp. f_equal. lia.
    + (* every digit was shifted out *)
      assert (Em1 : shr_m mrs1 = 0) by (destruct (shr_m mrs1); simpl in Hsh; lia).
      rewrite Em1 in *. destruct Hm2 as [Em2|Em2]; rewrite Em2 in *.
      * simpl Zdigits2 in H2.
        assert (E3 : shr_m mrs2 = 0).
        { destruct (0 <? Z.max (0 + e1 - 53) (-1074) - e1); destruct H2 as [-> _];
            [apply Z.div_0_l; pose proof (Z.pow_pos_nonneg 2 (Z.max (0 + e1 - 53) (-1074) - e1)); lia|reflexivity]. }
        rewrite E3. apply rounded_zero. lia.
      * simpl Zdigits2 in H2.
        destruct (Z.ltb_spec 0 (Z.max (1 + e1 - 53) (-1074) - e1)); [lia|].
        destruct H2 as [-> ->]. simpl.
        replace (e1 <=? 971) with true by (symmetry; apply Z.leb_le; lia).
        replace e1 with (-1074) by lia. apply rounded_min. lia.
  - (* no shift *)
    rewrite E1 in *. subst e1. fold d in Hsucc.
    destruct Hm2 as [Em2|Em2]; rewrite Em2 in *.
    + fold d in H2.
      destruct (Z.ltb_spec 0 (Z.max (d + ex - 53) (-1074) - ex)); [lia|].
      destruct H2 as [-> ->]. apply finish_round; [lia|lia|]. left. reflexivity.
    + destruct Hsucc as [Hs|[Hp Hs]]; rewrite Hs in *.
      * destruct (Z.ltb_spec 0 (Z.max (d + ex - 53) (-1074) - ex)); [lia|].
        destruct H2 as [-> ->]. apply finish_round; [lia|lia|]. left. fold d. lia.
      * destruct (Z.ltb_spec 0 (Z.max (d + 1 + ex - 53) (-1074) - ex)) as [Hk2|Hk2];
          destruct H2 as [-> ->].
        -- assert (Ek2 : Z.max (d + 1 + ex - 53) (-1074) - ex = 1) by lia.
           rewrite Ek2, Hp. rewrite pow2_div by lia.
           apply finish_round.
           ++ apply Z.pow_pos_nonneg; lia.
           ++ lia.
           ++ right. rewrite Zdigits2_pow2 by lia. split; [f_equal; lia|lia].
        -- apply finish_round; [lia|lia|]. right. rewrite Hs. split; [|lia].
           rewrite Hp. f_equal. lia.
Qed.

Lemma shr_1_double (c : Z) :
  0 <= c -> shr_1 (Build_shr_record (2 * c) false false) = Build_shr_record c false false.
Proof. intros _. destruct c; reflexivity. Qed.

Lemma iter_pos_shr_exact (p : positive) :
  forall c, 0 <= c ->
    iter_pos shr_1 p (Build_shr_record (c * 2 ^ Zpos p) false false)
    = Build_shr_record c false false.
Proof.
  induction p as [p IH|p IH|]; intros c Hc; cbn [iter_pos].
  - rewrite pow2_xI.
    replace (c * (2 * (2 ^ Z.pos p * 2 ^ Z.pos p)))
      with (2 * (c * 2 ^ Z.pos p * 2 ^ Z.pos p)) by ring.
    pose proof (Z.pow_pos_nonneg 2 (Z.pos p)).
    rewrite shr_1_double by nia.
    rewrite IH by nia. now apply IH.
  - rewrite pow2_xO.
    replace (c * (2 ^ Z.pos p * 2 ^ Z.pos p)) with (c * 2 ^ Z.pos p * 2 ^ Z.pos p) by ring.
    pose proof (Z.pow_pos_nonneg 2 (Z.pos p)).
    rewrite IH by nia. now apply IH.
  - replace (c * 2 ^ 1) with (2 * c) by (change (2 ^ 1) with 2; ring).
    now apply shr_1_double.
Qed.

Lemma binary_round_aux_pow2 (a ex : Z) :
  0 <= a -> -1074 < a + 1 + ex -> ex <= 900 -> a + 1 + ex <= 1000 ->
  exists m e,
    binary_round_aux prec emax false (2 ^ a) ex loc_Exact = S754_finite false m e
    /\ Zpos m = 2 ^ (Zdigits2 (Zpos m) - 1)
    /\ Zdigits2 (Zpos m) + e = a + 1 + ex.
Proof.
  intros Ha Hlo Hex Hhi.
  assert (Hfin : forall b e, 0 <= b -> e <= 971 ->
            Z.max (b + 1 + e - 53) (-1074) - e <= 0 ->
            b + 1 + e = a + 1 + ex ->
            exists m e',
              (let '(mrs2, e2) := shr_fexp prec emax (2 ^ b) e loc_Exact in
               match shr_m mrs2 with
               | 0 => S754_zero false
               | Z.pos m => if e2 <=? emax - prec then S754_finite false m e2
                            else S754_infinity false
               | Z.neg _ => S754_nan
               end) = S754_finite false m e'
              /\ Zpos m = 2 ^ (Zdigits2 (Zpos m) - 1)
              /\ Zdigits2 (Zpos m) + e' = a + 1 + ex).
  { intros b e Hb He Hk Hsum.
    unfold shr_fexp. rewrite fexp_eq, Zdigits2_pow2 by exact Hb.
    unfold shr.
    destruct (Z.max (b + 1 + e - 53) (-1074) - e) as [|p|p] eqn:Ek; try lia;
      simpl shr_m;
      pose proof (Z.pow_pos_nonneg 2 b ltac:(lia) Hb) as Hpos;
      destruct (2 ^ b) as [|m|m] eqn:Em; try lia;
      change (emax - prec) with 971;
      replace (e <=? 971) with true by (symmetry; apply Z.leb_le; lia);
      exists m, e; rewrite <- Em, Zdigits2_pow2 by exact Hb;
      (split; [reflexivity|split; [f_equal; lia|lia]]). }
  unfold binary_round_aux, shr_fexp at 1.
  rewrite fexp_eq, Zdigits2_pow2 by exact Ha. unfold shr at 1.
  destruct (Z.max (a + 1 + ex - 53) (-1074) - ex) as [|p|p] eqn:Ek.
  - simpl shr_record_of_loc. simpl loc_of_shr_record. simpl round_nearest_even.
    apply Hfin; lia.
  - replace (2 ^ a) with (2 ^ (a - Z.pos p) * 2 ^ Z.pos p)
      by (rewrite <- Z.pow_add_r by lia; f_equal; lia).
    simpl shr_record_of_loc.
    rewrite iter_pos_shr_exact by (apply Z.pow_nonneg; lia).
    simpl loc_of_shr_record. simpl round_nearest_even. simpl shr_m.
    apply Hfin; lia.
  - simpl shr_record_of_loc. simpl loc_of_shr_record. simpl round_nearest_even.
    apply Hfin; lia.
Qed.

Definition SF_half : spec_float := S754_finite false 4503599627370496 (-53).
Definition SF_one : spec_float := S754_finite false 4503599627370496 (-52).
Definition SF_two : spec_float := S754_finite false 4503599627370496 (-51).

Lemma two52 : Z.pos 4503599627370496 = 2 ^ 52.
Proof. reflexivity. Qed.

Lemma valid_finite (m : positive) (e : Z) :
  valid_binary (S754_finite false m e) = true ->
  Z.max (Zdigits2 (Zpos m) + e - 53) (-1074) = e /\ e <= 971.
Proof.
  unfold valid_binary, SpecFloat.valid_binary, bounded, canonical_mantissa.
  intros H. apply andb_true_iff in H as [H1 H2].
  apply Z.eqb_eq in H1. apply Z.leb_le in H2.
  rewrite fexp_eq in H1. split; [exact H1|exact H2].
Qed.

Lemma Zdigits2_mul_pow2 (m s : Z) :
  0 < m -> 0 <= s -> Zdigits2 (m * 2 ^ s) = Zdigits2 m + s.
Proof.
  intros Hm Hs. pose proof (Zdigits2_bounds m Hm) as [Hlo Hhi].
  pose proof (Zdigits2_pos m Hm) as Hd.
  pose proof (Z.pow_pos_nonneg 2 s ltac:(lia) Hs) as Hp.
  apply Zdigits2_unique; [|lia]. split.
  - replace (Zdigits2 m + s - 1) with ((Zdigits2 m - 1) + s) by lia.
    rewrite Z.pow_add_r by lia. nia.
  - rewrite Z.pow_add_r by lia. nia.
Qed.

Lemma Zdigits2_le (m d : Z) : 0 < m -> m < 2 ^ d -> 0 <= d -> Zdigits2 m <= d.
Proof.
  intros Hm Hlt Hd. pose proof (Zdigits2_bounds m Hm) as [Hlo _].
  destruct (Z.le_gt_cases (Zdigits2 m) d) as [|Hgt]; [assumption|].
  assert (2 ^ d <= 2 ^ (Zdigits2 m - 1)) by (apply Z.pow_le_mono_r; lia). lia.
Qed.

(** the draw: a valid number that is at least 0 and below 1 *)
Lemma unit_range_cases (x : spec_float) :
  valid_binary x = true ->
  SFleb (S754_zero false) x = true -> SFltb x SF_one = true ->
  (exists s, x = S754_zero s)
  \/ exists m e, x = S754_finite false m e /\ Zdigits2 (Zpos m) + e <= 0.
Proof.
  intros Hv Hle Hlt. destruct x as [s|s| |s m e].
  - left. now exists s.
  - destruct s; discriminate.
  - discriminate.
  - right. destruct s; [discriminate|]. exists m, e. split; [reflexivity|].
    apply valid_finite in Hv as [Hc He].
    unfold SFltb, SF_one, SFcompare in Hlt.
    destruct (Z.compare_spec e (-52)) as [E|E|E]; try discriminate; [|lia].
    subst e. 
    assert (Hm : Z.pos m < 2 ^ 52).
    { rewrite <- two52. destruct (Pos.compare_cont Eq m 4503599627370496) eqn:C;
        try discriminate.
      exact C. }
    pose proof (Zdigits2_le (Z.pos m) 52 ltac:(lia) Hm ltac:(lia)). lia.
Qed.

Lemma binary_round_aux_zero (ex : Z) (lx : location) :
  -1074 <= ex <= 900 ->
  binary_round_aux prec emax false 0 ex lx = S754_zero false
  \/ binary_round_aux prec emax false 0 ex lx = S754_finite false 1 ex.
Proof.
  intros Hex. unfold binary_round_aux.
  pose proof (shr_fexp_spec 0 ex lx ltac:(lia)) as H1.
  destruct (shr_fexp prec emax 0 ex lx) as [mrs1 e1]. cbv zeta in H1.
  rewrite fexp_eq in H1. simpl Zdigits2 in H1.
  destruct (Z.ltb_spec 0 (Z.max (0 + ex - 53) (-1074) - ex)); [lia|].
  destruct H1 as [E1 ->]. rewrite E1.
  change (emax - prec) with 971.
  destruct (round_nearest_even_cases 0 (loc_of_shr_record mrs1)) as [-> | ->].
  - left.
    pose proof (shr_fexp_spec 0 ex loc_Exact ltac:(lia)) as H2.
    destruct (shr_fexp prec emax 0 ex loc_Exact) as [mrs2 e2]. cbv zeta in H2.
    rewrite fexp_eq in H2. simpl Zdigits2 in H2.
    destruct (Z.ltb_spec 0 (Z.max (0 + ex - 53) (-1074) - ex)); [lia|].
    destruct H2 as [-> _]. reflexivity.
  - right. change (0 + 1) with 1.
    pose proof (shr_fexp_spec 1 ex loc_Exact ltac:(lia)) as H2.
    destruct (shr_fexp prec emax 1 ex loc_Exact) as [mrs2 e2]. cbv zeta in H2.
    rewrite fexp_eq in H2. simpl Zdigits2 in H2.
    destruct (Z.ltb_spec 0 (Z.max (1 + ex - 53) (-1074) - ex)); [lia|].
    destruct H2 as [-> ->].
    now replace (ex <=? 971) with true by (symmetry; apply Z.leb_le; lia).
Qed.

(** a number that is at most one half *)
Definition at_most_half (d : spec_float) : Prop :=
  d = S754_zero false
  \/ exists m e, d = S754_finite false m e
       /\ (Zdigits2 (Zpos m) + e <= -1
           \/ (Zpos m = 2 ^ (Zdigits2 (Zpos m) - 1) /\ Zdigits2 (Zpos m) + e <= 0)).

Lemma halve_unit_range (m : positive) (e : Z) :
  valid_binary (S754_finite false m e) = true ->
  Zdigits2 (Zpos m) + e <= 0 ->
  at_most_half (SF64div (S754_finite false m e) SF_two).
Proof.
  intros Hv Hmag. apply valid_finite in Hv as [Hc He].
  unfold SF64div, SFdiv, SF_two, SFdiv_core_binary.
  change (Zdigits2 (Z.pos 4503599627370496)) with 53.
  rewrite fexp_eq. cbn [xorb].
  set (d1 := Zdigits2 (Z.pos m)) in *.
  assert (Hd1 : 0 < d1) by (apply Zdigits2_pos; lia).
  set (e' := Z.min (Z.max (d1 + e - (53 + -51) - 53) (-1074)) (e - -51)).
  assert (He' : -1074 <= e' <= -55) by lia.
  assert (Hs : 0 < e - -51 - e') by lia.
  destruct (e - -51 - e') as [|s|s] eqn:Es; try lia.
  rewrite Z.shiftl_mul_pow2 by lia.
  pose proof (Z_div_mod (Z.pos m * 2 ^ Z.pos s) (Z.pos 4503599627370496) ltac:(lia)) as Hdm.
  destruct (Z.div_eucl (Z.pos m * 2 ^ Z.pos s) (Z.pos 4503599627370496)) as [q r].
  destruct Hdm as [Hq Hr].
  assert (Hqdiv : q = (Z.pos m * 2 ^ Z.pos s) / 2 ^ 52).
  { rewrite <- two52. apply (Z.div_unique _ _ _ r); [lia|exact Hq]. }
  pose proof (Z.pow_pos_nonneg 2 (Z.pos s) ltac:(lia) ltac:(lia)) as Hps.
  assert (Hq0 : 0 <= q).
  { rewrite Hqdiv. apply Z.div_pos; [nia|]. apply Z.pow_pos_nonneg; lia. }
  destruct (Z.eq_dec q 0) as [->|Hqn].
  - destruct (binary_round_aux_zero e' (new_location (Z.pos 4503599627370496) r)
                ltac:(lia)) as [-> | ->].
    + now left.
    + right. exists 1%positive, e'. split; [reflexivity|]. left. simpl Zdigits2. lia.
  - assert (Hqp : 0 < q) by lia.
    assert (Hdq : Zdigits2 q + e' <= -1).
    { pose proof (Zdigits2_shift (Z.pos m * 2 ^ Z.pos s) 52 ltac:(nia) ltac:(lia)) as Hsh.
      rewrite <- Hqdiv in Hsh.
      rewrite Zdigits2_mul_pow2 in Hsh by lia. fold d1 in Hsh.
      pose proof (Zdigits2_pos q Hqp).
      destruct (52 <? d1 + Z.pos s); lia. }
    pose proof (binary_round_aux_rounded q e' (new_location (Z.pos 4503599627370496) r)
                  Hqp ltac:(lia) ltac:(lia)) as Hr'.
    inversion Hr' as [Hz|m3 e3 Hsame|m3 e3 Hpow Hup|Hmin].
    + now left.
    + right. exists m3, e3. split; [reflexivity|]. left. lia.
    + right. exists m3, e3. split; [reflexivity|]. right. split; [exact Hpow|lia].
    + right. exists 1%positive, (-1074). split; [reflexivity|]. left. simpl Zdigits2. lia.
Qed.

Lemma Pos_iter_xO (p n : positive) : Zpos (Pos.iter xO p n) = Zpos p * 2 ^ Zpos n.
Proof.
  induction n as [|n IH] using Pos.peano_ind.
  - simpl. rewrite Pos2Z.inj_xO. change (2 ^ 1) with 2. lia.
  - rewrite Pos.iter_succ, Pos2Z.inj_xO, IH, Pos2Z.inj_succ, Z.pow_succ_r by lia. ring.
Qed.

Lemma shl_align_same (m : positive) (e : Z) : shl_align m e e = (m, e).
Proof. unfold shl_align. now rewrite Z.sub_diag. Qed.

Lemma shl_align_half (e : Z) :
  e <= -53 -> Zpos (fst (shl_align 4503599627370496 (-53) e)) = 2 ^ (-1 - e).
Proof.
  intros He. unfold shl_align. destruct (e - -53) as [|p|p] eqn:E; try lia.
  - replace e with (-53) by lia. reflexivity.
  - cbn [fst]. rewrite Pos_iter_xO, two52, <- Z.pow_add_r by lia. f_equal. lia.
Qed.

(** adding one half to a number of at most one half: the sum before rounding *)
Lemma add_half_unrounded (m : positive) (e : Z) :
  e <= -53 ->
  exists M : positive,
    Zpos M = Zpos m + 2 ^ (-1 - e)
    /\ SF64add (S754_finite false m e) SF_half
       = binary_round_aux prec emax false (Zpos M) e loc_Exact.
Proof.
  intros He. unfold SF64add, SFadd, SF_half. cbn [cond_Zopp].
  replace (Z.min e (-53)) with e by lia.
  rewrite shl_align_same. cbn [fst].
  pose proof (shl_align_half e He) as Hh.
  set (X := fst (shl_align 4503599627370496 (-53) e)) in *.
  exists (m + X)%positive.
  assert (HM : Zpos (m + X) = Zpos m + 2 ^ (-1 - e))
    by (rewrite Pos2Z.inj_add, Hh; reflexivity).
  split; [exact HM|].
  change (Z.pos m + Z.pos X) with (Z.pos (m + X)).
  cbn [binary_normalize]. unfold binary_round. rewrite fexp_eq.
  assert (Hd : - e <= Zdigits2 (Zpos (m + X))).
  { pose proof (Zdigits2_bounds (Zpos (m + X)) ltac:(lia)) as [_ Hhi].
    destruct (Z.le_gt_cases (- e) (Zdigits2 (Zpos (m + X)))) as [|Hgt]; [assumption|].
    assert (2 ^ Zdigits2 (Zpos (m + X)) <= 2 ^ (-1 - e))
      by (apply Z.pow_le_mono_r; lia).
    lia. }
  unfold shl_align.
  change (Z.pos (digits2_pos (m + X))) with (Zdigits2 (Zpos (m + X))).
  destruct (Z.max (Zdigits2 (Z.pos (m + X)) + e - 53) (-1074) - e) eqn:Ek;
    [reflexivity|reflexivity|lia].
Qed.

Definition half_to_one (h : spec_float) : Prop :=
  exists m e, h = S754_finite false m e
    /\ (Zdigits2 (Zpos m) + e = 0
        \/ (Zpos m = 2 ^ (Zdigits2 (Zpos m) - 1) /\ Zdigits2 (Zpos m) + e = 1)).

Lemma add_half_rounded (d : spec_float) :
  valid_binary d = true -> at_most_half d ->
  SF64add d SF_half = SF_half \/ half_to_one (SF64add d SF_half).
Proof.
  intros Hv [->|(m & e & -> & Hd)]; [left; reflexivity|right].
  apply valid_finite in Hv as [Hc He].
  assert (He53 : e <= -53) by lia.
  destruct (add_half_unrounded m e He53) as (M & HM & ->).
  pose proof (Zdigits2_pos (Zpos m) ltac:(lia)) as Hdm.
  pose proof (Zdigits2_bounds (Zpos m) ltac:(lia)) as [Hlo Hhi].
  pose proof (Z.pow_pos_nonneg 2 (-1 - e) ltac:(lia) ltac:(lia)) as Hp.
  destruct (Z.le_gt_cases (Zdigits2 (Zpos m) + e) (-1)) as [Hsmall|Hbig].
  - assert (HDM : Zdigits2 (Zpos M) = - e).
    { apply Zdigits2_unique; [|lia]. 
      replace (- e) with (Z.succ (-1 - e)) at 2 by lia. rewrite Z.pow_succ_r by lia.
      replace (- e - 1) with (-1 - e) by lia.
      assert (2 ^ Zdigits2 (Zpos m) <= 2 ^ (-1 - e)) by (apply Z.pow_le_mono_r; lia).
      lia. }
    pose proof (binary_round_aux_rounded (Zpos M) e loc_Exact ltac:(lia) ltac:(lia)
                  ltac:(lia)) as Hr.
    rewrite HDM in Hr. replace (- e + e) with 0 in Hr by lia.
    inversion Hr as [Hz|m3 e3 Hsame|m3 e3 Hpow Hup|Hmin]; try lia.
    + exists m3, e3. split; [reflexivity|]. left. exact Hsame.
    + exists m3, e3. split; [reflexivity|]. right. split; [exact Hpow|exact Hup].
  - destruct Hd as [Hd|[Hpow Hd]]; [lia|].
    assert (E0 : Zdigits2 (Zpos m) + e = 0) by lia.
    assert (HM2 : Zpos M = 2 ^ (- e)).
    { rewrite HM, Hpow. replace (Zdigits2 (Z.pos m) - 1) with (-1 - e) by lia.
      replace (- e) with (Z.succ (-1 - e)) by lia. rewrite Z.pow_succ_r by lia. lia. }
    rewrite HM2.
    destruct (binary_round_aux_pow2 (- e) e ltac:(lia) ltac:(lia) ltac:(lia) ltac:(lia))
      as (m3 & e3 & -> & Hp3 & Hs3).
    exists m3, e3. split; [reflexivity|]. right. split; [exact Hp3|lia].
Qed.

Lemma half_to_one_bounds (h : spec_float) :
  valid_binary h = true -> half_to_one h ->
  SFleb SF_half h = true /\ SFleb h SF_one = true.
Proof.
  intros Hv (m & e & -> & H). apply valid_finite in Hv as [Hc He].
  pose proof (Zdigits2_bounds (Zpos m) ltac:(lia)) as [Hlo Hhi].
  destruct H as [H0|[Hpow H1]].
  - assert (e = -53) by lia. subst e.
    assert (HD : Zdigits2 (Zpos m) = 53) by lia. rewrite HD in Hlo.
    change (2 ^ (53 - 1)) with (Z.pos 4503599627370496) in Hlo.
    split; [|reflexivity].
    unfold SFleb, SF_half, SFcompare. cbn [Z.compare Pos.compare Pos.compare_cont].
    change (Z.pos 4503599627370496 <= Z.pos m)
      with (Pos.compare_cont Eq 4503599627370496 m <> Gt) in Hlo.
    destruct (Pos.compare_cont Eq 4503599627370496 m); [reflexivity|reflexivity|].
    now elim Hlo.
  - assert (e = -52) by lia. subst e.
    assert (HD : Zdigits2 (Zpos m) = 53) by lia. rewrite HD in Hpow.
    change (2 ^ (53 - 1)) with (Z.pos 4503599627370496) in Hpow.
    injection Hpow as ->. split; reflexivity.
Qed.


Local Open Scope float_scope.

(** A draw [r] with [0 <= r < 1] gives a height [r / 2 + 0.5] between 0.5
    and 1, both included. *)
Theorem half_plus_half_range (r : float) :
  (0 <=? r) = true -> (r <? 1) = true ->
  (0.5 <=? r / 2 + 0.5) = true /\ (r / 2 + 0.5 <=? 1) = true.
Proof.
  intros Hlo Hhi.
  rewrite FloatAxioms.leb_spec in Hlo. rewrite FloatAxioms.ltb_spec in Hhi.
  rewrite !FloatAxioms.leb_spec.
  pose proof (Prim2SF_valid r) as Vr.
  pose proof (Prim2SF_valid (r / 2)) as Vd.
  pose proof (Prim2SF_valid (r / 2 + 0.5)) as Vh.
  rewrite FloatAxioms.add_spec in *. rewrite FloatAxioms.div_spec in *.
  change (Prim2SF 0.5) with SF_half in *.
  change (Prim2SF 1) with SF_one in *.
  change (Prim2SF 2) with SF_two in *.
  change (Prim2SF 0) with (S754_zero false) in *.
  destruct (unit_range_cases (Prim2SF r) Vr Hlo Hhi) as [[s E]|(m & e & E & Hmag)];
    rewrite E in *.
  - destruct s; split; reflexivity.
  - pose proof (halve_unit_range m e Vr Hmag) as Hd.
    destruct (add_half_rounded _ Vd Hd) as [E2|H2].
    + rewrite E2. split; reflexivity.
    + now apply half_to_one_bounds.
Qed.

End Binary64.

(** ** Spacing of the columns, in double precision *)





(** ** The height of a column *)

(** The geometry and the height of the centre of the column whose height was
    drawn as [r]. *)
Definition column_shape (r : number) : Geometry * number :=
  (Cylinder 1 6 (r / 2 + 0.5), ((r / 2 + 0.5) / 2)%float).

Definition shape (m : Mesh) : Geometry * number :=
  (mesh_geometry m, v_y (mesh_position m)).

Lemma line_columns_shape (k : nat) u d rnd scene x z :
  map shape (line_columns k u d rnd scene x z)
  = map (fun n => column_shape (rnd n)) (seq d k).
Proof.
  revert u d z. induction k as [|k IH]; intros u d z; [reflexivity|].
  cbn [line_columns map seq]. now rewrite IH.
Qed.

Lemma grid_columns_shape (rows : nat) i columns u d rnd scene XPos ZPos :
  map shape (grid_columns rows i columns u d rnd scene XPos ZPos)
  = map (fun n => column_shape (rnd n)) (seq d (rows * columns)).
Proof.
  revert i u d. induction rows as [|rows IH]; intros i u d; [reflexivity|].
  cbn [grid_columns]. rewrite map_app, line_columns_shape, IH.
  simpl Nat.mul. now rewrite seq_app, map_app.
Qed.

(** C4 (as the code has it).  With every draw of [Math.random()] in its
    range, [createGround] creates [rowCount * columnsPerRow] columns; the
    [k]-th of them is a cylinder of diameter 1 with 6 sides whose height [h]
    is [r / 2 + 0.5] for the [k]-th draw [r]; [h] lies between 0.5 and 1, both
    ends included, and the column's [position.y] is [h / 2]. *)
Theorem C4_column_height_and_base (w : World) (g : uid) (rowCount columnsPerRow : Z)
    (originX originZ : number) (scene : uid) :
  shadowGenerator w = Some g -> wf w = true -> random_in_range w ->
  let columns :=
    created_meshes w (snd (createGround rowCount columnsPerRow originX originZ scene w)) in
  List.length columns = Z.to_nat rowCount * Z.to_nat columnsPerRow
  /\ forall (k : nat) (m : Mesh),
       nth_error columns k = Some m ->
       let h := (random_source w (random_draws w + k) / 2 + 0.5)%float in
       mesh_geometry m = Cylinder 1 6 h
       /\ v_y (mesh_position m) = (h / 2)%float
       /\ (0.5 <=? h)%float = true
       /\ (h <=? 1)%float = true.
Proof.
  intros Hg Hwf Hrnd columns. subst columns.
  destruct (createGround_defined w g rowCount columnsPerRow originX originZ scene Hg Hwf)
    as (w1 & E & (Hm & _)).
  rewrite E. cbn [snd]. rewrite (created_meshes_app _ _ _ Hm).
  split; [apply grid_columns_length|].
  intros k m Hk. cbv zeta.
  assert (Hs : shape m = column_shape (random_source w (random_draws w + k))).
  { pose proof (grid_columns_shape (Z.to_nat rowCount) 0%Z (Z.to_nat columnsPerRow)
                  (next_uid w) (random_draws w) (random_source w) scene originX originZ)
      as Hshape.
    apply (f_equal (fun l => nth_error l k)) in Hshape.
    rewrite !nth_error_map, Hk, nth_error_seq in Hshape.
    destruct (Nat.ltb_spec k (Z.to_nat rowCount * Z.to_nat columnsPerRow)) as [_|Hge].
    - cbn [option_map] in Hshape. congruence.
    - cbn [option_map] in Hshape. discriminate Hshape. }
  unfold shape, column_shape in Hs. injection Hs as Hgeo Hy.
  destruct (Hrnd (random_draws w + k)) as [Hlo Hhi].
  destruct (Binary64.half_plus_half_range _ Hlo Hhi) as [H1 H2].
  repeat split; assumption.
Qed.

Lemma C4_column_height_and_base_witness :
  let columns := created_meshes demo_world (snd (createGround 2 3 0 0 1 demo_world)) in
  List.length columns = Z.to_nat 2 * Z.to_nat 3
  /\ forall (k : nat) (m : Mesh),
       nth_error columns k = Some m ->
       let h := (random_source demo_world (random_draws demo_world + k) / 2 + 0.5)%float in
       mesh_geometry m = Cylinder 1 6 h
       /\ v_y (mesh_position m) = (h / 2)%float
       /\ (0.5 <=? h)%float = true
       /\ (h <=? 1)%float = true.
Proof.
  apply (C4_column_height_and_base demo_world 4 2 3 0 0 1);
    [reflexivity | reflexivity | intros n; split; reflexivity].
Defined.

(** The world [Init] leaves behind when every draw of [Math.random()] is the
    largest double below 1. *)
Definition highest_draw_world : World :=
  snd (Init 7 (empty_world (fun _ => 0x1.fffffffffffffp-1%float))).

(** C4 (as stated) fails.  Every draw of [highest_draw_world] is in the range
    of [Math.random()], at least 0 and below 1, and the column built from it
    has height exactly 1, which is not below 1: [0.5 - 2^-54] plus [0.5] lies
    half-way between two doubles and rounds to the even one, 1. *)
Lemma C4_counterexample :
  random_in_range highest_draw_world
  /\ map shape (created_meshes highest_draw_world
                  (snd (createGround 1 1 0 0 1 highest_draw_world)))
     = [(Cylinder 1 6 1, 0.5%float)]
  /\ (1 <? 1)%float = false.
Proof.
  split; [intros n; split; reflexivity|]. split; [vm_compute|]; reflexivity.
Qed.

(** ** The heightmap ground *)





(** ** A column that failed to register *)

(** The world [createGroundObject] leaves when [shadowGenerator] is
    [undefined]: the cylinder was created, placed and marked to receive
    shadows before the exception. *)
Definition orphan_world (x z height : number) (scene : uid) (w : World) : World :=
  mkWorld (S (next_uid w)) (engines w) (scenes w) (cameras w) (lights w)
    (shadowGenerators w)
    (meshes w ++ [column (next_uid w) scene x z height])
    (materials w) (textures w) (shadowGenerator w)
    (random_source w) (random_draws w) (renderLoops w) (resizeListeners w)
    (trace w ++ [CreateCylinder (next_uid w) scene]).

Lemma createGroundObject_orphan (w : World) (x z height : number) (scene : uid) :
  shadowGenerator w = None -> wf w = true ->
  createGroundObject x z height scene w
  = (Throw (TypeError "shadowGenerator is undefined"), orphan_world x z height scene w).
Proof.
  intros Hg Hwf. pose proof (wf_meshes_below w Hwf) as Hm.
  unfold createGroundObject, MeshBuilder_CreateCylinder, new_mesh, Mesh_write,
    shadowGenerator_object, ShadowGenerator_addShadowCaster, orphan_world.
  destruct w. cbn in Hg, Hm. subst. run.
  rewrite !update_app, !(update_fresh _ _ _ _ Hm).
  rewrite !update_hit by reflexivity. reflexivity.
Qed.

Lemma createGroundLine_orphan (w : World) (length : Z) (x z : number) (scene : uid) :
  shadowGenerator w = None -> wf w = true -> (0 < length)%Z ->
  createGroundLine length x z scene w
  = (Throw (TypeError "shadowGenerator is undefined"),
     orphan_world x z (random_source w (random_draws w) / 2 + 0.5)%float scene
       (set_random_draws (S (random_draws w)) w)).
Proof.
  intros Hg Hwf Hl. unfold createGroundLine, for_lt.
  destruct (Z.to_nat length) as [|k] eqn:E; [lia|].
  cbn [for_from]. unfold bind at 1 2 3. unfold Math_random.
  unfold bind at 1.
  rewrite createGroundObject_orphan by (destruct w; assumption).
  reflexivity.
Qed.

(** When [shadowGenerator] is [undefined], the exception of
    [createGroundObject] undoes nothing: the call fails, yet the new column
    stays in the scene, at (x, height / 2, z) and marked to receive shadows,
    and it is a shadow caster of no generator. *)
Theorem createGroundObject_failure_keeps_column (w : World) (x z height : number)
    (scene : uid) :
  shadowGenerator w = None -> wf w = true ->
  let w' := snd (createGroundObject x z height scene w) in
  fst (createGroundObject x z height scene w)
  = Throw (TypeError "shadowGenerator is undefined")
  /\ created_meshes w w'
     = [mkMesh (next_uid w) scene "roof" (Cylinder 1 6 height)
          (mkVector3 x (height / 2) z) true None]
  /\ shadowGenerators w' = shadowGenerators w
  /\ new_calls w w' = [CreateCylinder (next_uid w) scene].
Proof.
  intros Hg Hwf w'. subst w'. rewrite createGroundObject_orphan by assumption.
  cbn [fst snd]. split; [reflexivity|]. split.
  { apply created_meshes_app. destruct w; reflexivity. }
  split; [destruct w; reflexivity|].
  apply new_calls_app. destruct w; reflexivity.
Qed.

Lemma createGroundObject_failure_keeps_column_witness :
  let w := empty_world (fun _ => 0.25%float) in
  let w' := snd (createGroundObject 2 3 0.75 1 w) in
  fst (createGroundObject 2 3 0.75 1 w)
  = Throw (TypeError "shadowGenerator is undefined")
  /\ created_meshes w w'
     = [mkMesh (next_uid w) 1 "roof" (Cylinder 1 6 0.75)
          (mkVector3 2 (0.75 / 2) 3) true None]
  /\ shadowGenerators w' = shadowGenerators w
  /\ new_calls w w' = [CreateCylinder (next_uid w) 1].
Proof.
  apply (createGroundObject_failure_keeps_column (empty_world (fun _ => 0.25%float))
           2 3 0.75 1); reflexivity.
Defined.

(** When [shadowGenerator] is [undefined] and both counts are positive,
    [createGround] stops at its first column: it fails after one draw of
    [Math.random()], leaving exactly one column in the scene, the one of row
    0 and column 0, and none of the others is built. *)
Theorem createGround_failure_stops_at_first_column (w : World) (size_x size_z : Z)
    (XPos ZPos : number) (scene : uid) :
  shadowGenerator w = None -> wf w = true -> (0 < size_x)%Z -> (0 < size_z)%Z ->
  let w' := snd (createGround size_x size_z XPos ZPos scene w) in
  fst (createGround size_x size_z XPos ZPos scene w)
  = Throw (TypeError "shadowGenerator is undefined")
  /\ created_meshes w w'
     = [column (next_uid w) scene (XPos + of_int 0 * 0.75)%float (ZPos + 0.5)%float
          (random_source w (random_draws w) / 2 + 0.5)%float]
  /\ random_draws w' = S (random_draws w)
  /\ shadowGenerators w' = shadowGenerators w.
Proof.
  intros Hg Hwf Hx Hz w'. subst w'.
  assert (E : createGround size_x size_z XPos ZPos scene w
              = (Throw (TypeError "shadowGenerator is undefined"),
                 orphan_world (XPos + of_int 0 * 0.75)%float (ZPos + 0.5)%float
                   (random_source w (random_draws w) / 2 + 0.5)%float scene
                   (set_random_draws (S (random_draws w)) w))).
  { unfold createGround, for_lt.
    destruct (Z.to_nat size_x) as [|k] eqn:E; [lia|].
    cbn [for_from]. unfold bind at 1.
    replace (if (Z.rem 0 2 =? 0)%Z
             then createGroundLine size_z (XPos + of_int 0 * 0.75)%float
                    (ZPos + 0.5)%float scene
             else createGroundLine size_z (XPos + of_int 0 * 0.75)%float ZPos scene)
      with (createGroundLine size_z (XPos + of_int 0 * 0.75)%float (ZPos + 0.5)%float scene)
      by reflexivity.
    now rewrite createGroundLine_orphan by assumption. }
  rewrite E. cbn [fst snd]. split; [reflexivity|]. split.
  { apply created_meshes_app. destruct w; reflexivity. }
  split; destruct w; reflexivity.
Qed.

Lemma createGround_failure_stops_at_first_column_witness :
  let w := empty_world (fun _ => 0.25%float) in
  let w' := snd (createGround 2 3 0 0 1 w) in
  fst (createGround 2 3 0 0 1 w) = Throw (TypeError "shadowGenerator is undefined")
  /\ created_meshes w w'
     = [column (next_uid w) 1 (0 + of_int 0 * 0.75)%float (0 + 0.5)%float
          (random_source w (random_draws w) / 2 + 0.5)%float]
  /\ random_draws w' = S (random_draws w)
  /\ shadowGenerators w' = shadowGenerators w.
Proof.
  apply (createGround_failure_stops_at_first_column (empty_world (fun _ => 0.25%float))
           2 3 0 0 1); [reflexivity | reflexivity | lia | lia].
Defined.

(** ** What building columns leaves alone *)

(** A relation between the world before and the world after that every step
    of a computation keeps, whether the computation returns or fails. *)
Section Preserves.

Variable P : World -> World -> Prop.
Hypothesis P_refl : forall w, P w w.
Hypothesis P_trans : forall w1 w2 w3, P w1 w2 -> P w2 w3 -> P w1 w3.

Definition preserves {A} (c : M A) : Prop := forall w, P w (snd (c w)).

Lemma preserves_ret {A} (a : A) : preserves (ret a).
Proof. intros w. apply P_refl. Qed.

Lemma preserves_bind {A B} (c : M A) (k : A -> M B) :
  preserves c -> (forall a, preserves (k a)) -> preserves (bind c k).
Proof.
  intros Hc Hk w. unfold bind. pose proof (Hc w) as H1.
  destruct (c w) as [[a|e] w1]; cbn [snd] in *; [|exact H1].
  eapply P_trans; [exact H1|apply Hk].
Qed.

Lemma preserves_for_from {S} (body : Z -> S -> M S) (iterations : nat) :
  (forall i s, preserves (body i s)) ->
  forall i s, preserves (for_from i iterations body s).
Proof.
  intros Hb. induction iterations as [|k IH]; intros i s; cbn [for_from].
  - apply preserves_ret.
  - apply preserves_bind; [apply Hb|]. intros s'. apply IH.
Qed.

(** The three builders of columns keep what [createGroundObject]'s own steps
    keep. *)
Lemma preserves_createGround (size_x size_z : Z) (XPos ZPos : number) (scene : uid) :
  (forall x z height, preserves (createGroundObject x z height scene)) ->
  preserves Math_random ->
  preserves (createGround size_x size_z XPos ZPos scene).
Proof.
  intros Hobj Hrnd.
  assert (Hline : forall length x z, preserves (createGroundLine length x z scene)).
  { intros length x z. unfold createGroundLine, for_lt.
    apply preserves_bind; [|intros ?; apply preserves_ret].
    apply preserves_for_from. intros i s.
    apply preserves_bind; [exact Hrnd|].
    intros r. apply preserves_bind; [apply Hobj|].
    intros ?. apply preserves_ret. }
  unfold createGround, for_lt. apply preserves_for_from. intros i s.
  destruct (Z.rem i 2 =? 0)%Z; apply Hline.
Qed.

End Preserves.

(** Everything of the world that is not a mesh, a shadow caster, a draw or a
    call: the engines, scenes, cameras, lights, materials and textures, the
    closure variable, the source of draws and the registered callbacks. *)
Definition rig_unchanged (w w' : World) : Prop :=
  engines w' = engines w /\ scenes w' = scenes w /\ cameras w' = cameras w
  /\ lights w' = lights w /\ materials w' = materials w /\ textures w' = textures w
  /\ shadowGenerator w' = shadowGenerator w /\ random_source w' = random_source w
  /\ renderLoops w' = renderLoops w /\ resizeListeners w' = resizeListeners w.

Lemma rig_unchanged_refl (w : World) : rig_unchanged w w.
Proof. unfold rig_unchanged. tauto. Qed.

Lemma rig_unchanged_trans (w1 w2 w3 : World) :
  rig_unchanged w1 w2 -> rig_unchanged w2 w3 -> rig_unchanged w1 w3.
Proof.
  unfold rig_unchanged. intros H1 H2.
  decompose [and] H1. decompose [and] H2. repeat split; congruence.
Qed.

Lemma createGroundObject_rig (x z height : number) (scene : uid) :
  preserves rig_unchanged (createGroundObject x z height scene).
Proof.
  unfold createGroundObject, MeshBuilder_CreateCylinder, new_mesh, Mesh_write,
    ShadowGenerator_addShadowCaster.
  repeat (apply (preserves_bind _ rig_unchanged_trans); [|intros ?]);
    try apply (preserves_ret _ rig_unchanged_refl);
    try (intros w; destruct w; unfold rig_unchanged; run; tauto).
  intros w. unfold shadowGenerator_object.
  destruct (shadowGenerator w); apply rig_unchanged_refl.
Qed.

(** Whatever its arguments and whether it returns or fails, [createGround]
    touches no engine, scene, camera, light, material or texture, does not
    assign [shadowGenerator], and registers or removes no render loop and no
    resize listener. *)
Theorem createGround_leaves_rig_alone (w : World) (size_x size_z : Z) (XPos ZPos : number)
    (scene : uid) :
  rig_unchanged w (snd (createGround size_x size_z XPos ZPos scene w)).
Proof.
  revert w. apply (preserves_createGround _ rig_unchanged_refl rig_unchanged_trans).
  - intros x z height. apply createGroundObject_rig.
  - intros w. destruct w. unfold rig_unchanged. run. tauto.
Qed.

(** The casters of the generators that [shadowGenerator] does not refer to. *)
Definition other_casters_unchanged (w w' : World) : Prop :=
  shadowGenerator w' = shadowGenerator w
  /\ forall g', shadowGenerator w <> Some g' -> casters g' w' = casters g' w.

Lemma other_casters_refl (w : World) : other_casters_unchanged w w.
Proof. split; [reflexivity|]. intros g' _. reflexivity. Qed.

Lemma other_casters_trans (w1 w2 w3 : World) :
  other_casters_unchanged w1 w2 -> other_casters_unchanged w2 w3 ->
  other_casters_unchanged w1 w3.
Proof.
  intros [V1 C1] [V2 C2]. split; [congruence|].
  intros g' Hg'. rewrite C2 by congruence. now apply C1.
Qed.

Lemma find_update_other {A} (id_of : A -> uid) (n n' : uid) (f : A -> A) (l : list A) :
  (forall o, id_of (f o) = id_of o) -> n' <> n ->
  find (fun o => Nat.eqb (id_of o) n') (update id_of n f l)
  = find (fun o => Nat.eqb (id_of o) n') l.
Proof.
  intros Hf Hn. unfold update. induction l as [|o l IH]; simpl; [reflexivity|].
  destruct (Nat.eqb_spec (id_of o) n) as [E|E].
  - rewrite Hf. destruct (Nat.eqb_spec (id_of o) n'); [congruence|exact IH].
  - destruct (Nat.eqb (id_of o) n'); [reflexivity|exact IH].
Qed.

Lemma createGroundObject_other_casters (x z height : number) (scene : uid) :
  preserves other_casters_unchanged (createGroundObject x z height scene).
Proof.
  unfold createGroundObject.
  do 5 (apply (preserves_bind _ other_casters_trans);
        [intros w; destruct w; split; [reflexivity|intros g' _; reflexivity]|intros ?]).
  intros w. unfold bind, shadowGenerator_object, ShadowGenerator_addShadowCaster.
  destruct w as [n es ss cs ls gs ms mats ts [g|] rs rd rl rz tr];
    [|apply other_casters_refl].
  split; [reflexivity|]. intros g' Hg'.
  unfold casters, find_shadowGenerator. run.
  rewrite find_update_other; [reflexivity|reflexivity|].
  intros ->. now apply Hg'.
Qed.

(** With [shadowGenerator] assigned, [createGround] draws [Math.random()]
    once per column, [rowCount * columnsPerRow] times in all, keeps the
    variable assigned and the world well formed, and registers its columns
    with the assigned generator only: the casters of any other generator are
    as before.  So a second call works as the first did. *)
Theorem createGround_draws_once_per_column (w : World) (g : uid)
    (rowCount columnsPerRow : Z) (originX originZ : number) (scene : uid) :
  shadowGenerator w = Some g -> wf w = true ->
  let w' := snd (createGround rowCount columnsPerRow originX originZ scene w) in
  let N := Z.to_nat rowCount * Z.to_nat columnsPerRow in
  random_draws w' = random_draws w + N
  /\ next_uid w' = next_uid w + N
  /\ shadowGenerator w' = Some g
  /\ wf w' = true
  /\ (forall g', g' <> g -> casters g' w' = casters g' w).
Proof.
  intros Hg Hwf.
  destruct (createGround_defined w g rowCount columnsPerRow originX originZ scene Hg Hwf)
    as (w1 & E & (_ & Hu & Hd & _ & Hv & _ & Hwf1)).
  rewrite grid_columns_length in Hu, Hd.
  pose proof (preserves_createGround _ other_casters_refl other_casters_trans
                rowCount columnsPerRow originX originZ scene
                (fun x z h => createGroundObject_other_casters x z h scene)
                (fun w => ltac:(destruct w; split;
                                [reflexivity|intros g' _; reflexivity])) w) as [_ Ho].
  rewrite E in *. cbn [snd] in *.
  repeat split; try assumption; [congruence|].
  intros g' Hne. apply Ho. rewrite Hg. congruence.
Qed.

Lemma createGround_draws_once_per_column_witness :
  let w' := snd (createGround 2 3 0 0 1 demo_world) in
  let N := Z.to_nat 2 * Z.to_nat 3 in
  random_draws w' = random_draws demo_world + N
  /\ next_uid w' = next_uid demo_world + N
  /\ shadowGenerator w' = Some 4
  /\ wf w' = true
  /\ (forall g', g' <> 4 -> casters g' w' = casters g' demo_world).
Proof.
  apply (createGround_draws_once_per_column demo_world 4 2 3 0 0 1); reflexivity.
Defined.

(** ** Starting the view more than once *)

Lemma dispatch_calls (ev : HostEvent) (w : World) :
  fst (dispatch ev w) = Normal tt
  /\ new_calls w (snd (dispatch ev w)) = map callback_call (listeners ev w).
Proof.
  replace (dispatch ev w) with (run_callbacks (listeners ev w) w)
    by (destruct ev; reflexivity).
  rewrite run_callbacks_trace. cbn [fst snd]. split; [reflexivity|].
  apply new_calls_app. destruct w; reflexivity.
Qed.

(** [Init] only ever adds callbacks: the render loops and resize listeners
    registered before it stay registered, in their order, and its own come
    last.  So after [Init] a resize of the window first runs every listener
    registered earlier and then calls [engine.resize()] on the new engine, and
    a frame runs every earlier render function and then renders the new
    scene. *)
Theorem Init_keeps_earlier_callbacks (w : World) (canvas : uid) :
  wf w = true ->
  let e := next_uid w in
  let w1 := snd (Init canvas w) in
  resizeListeners w1 = resizeListeners w ++ [ResizeEngine e]
  /\ renderLoops w1 = renderLoops w ++ [(e, RenderScene (1 + e))]
  /\ new_calls w1 (snd (dispatch WindowResize w1))
     = map callback_call (resizeListeners w) ++ [EngineResize e]
  /\ new_calls w1 (snd (dispatch AnimationFrame w1))
     = map callback_call (map snd (renderLoops w)) ++ [SceneRender (1 + e)].
Proof.
  intros Hwf e w1. subst e w1. rewrite (Init_world w canvas Hwf). cbn [snd].
  assert (Hr : resizeListeners (init_world canvas w)
               = resizeListeners w ++ [ResizeEngine (next_uid w)])
    by (destruct w; reflexivity).
  assert (Hl : renderLoops (init_world canvas w)
               = renderLoops w ++ [(next_uid w, RenderScene (1 + next_uid w))])
    by (destruct w; reflexivity).
  split; [exact Hr|]. split; [exact Hl|].
  split.
  - rewrite (proj2 (dispatch_calls WindowResize _)). cbn [listeners].
    now rewrite Hr, map_app.
  - rewrite (proj2 (dispatch_calls AnimationFrame _)). cbn [listeners].
    now rewrite Hl, !map_app.
Qed.

Lemma Init_keeps_earlier_callbacks_witness :
  let e := next_uid demo_world in
  let w1 := snd (Init 8 demo_world) in
  resizeListeners w1 = resizeListeners demo_world ++ [ResizeEngine e]
  /\ renderLoops w1 = renderLoops demo_world ++ [(e, RenderScene (1 + e))]
  /\ new_calls w1 (snd (dispatch WindowResize w1))
     = map callback_call (resizeListeners demo_world) ++ [EngineResize e]
  /\ new_calls w1 (snd (dispatch AnimationFrame w1))
     = map callback_call (map snd (renderLoops demo_world)) ++ [SceneRender (1 + e)].
Proof.
  apply (Init_keeps_earlier_callbacks demo_world 8). reflexivity.
Defined.

(** ** Two scenes, one closure variable *)

Lemma line_columns_scene (k : nat) u d rnd scene x z :
  Forall (fun m => mesh_scene m = scene) (line_columns k u d rnd scene x z).
Proof.
  revert u d z. induction k as [|k IH]; intros u d z; constructor; [reflexivity|apply IH].
Qed.

Lemma grid_columns_scene (rows : nat) i columns u d rnd scene XPos ZPos :
  Forall (fun m => mesh_scene m = scene)
    (grid_columns rows i columns u d rnd scene XPos ZPos).
Proof.
  revert i u d. induction rows as [|rows IH]; intros i u d; [constructor|].
  cbn [grid_columns]. apply Forall_app. split; [apply line_columns_scene|apply IH].
Qed.

(** [createScene] assigns the one variable [shadowGenerator] each time it
    runs.  After two calls the variable refers to the generator of the second
    scene, and the columns [createGround] then builds are registered with that
    generator whatever scene they are built in: built in the first scene,
    they belong to the first scene, all of them are casters of the second
    scene's generator, and the first scene's generator has no caster. *)
Theorem columns_register_with_latest_generator (w : World) (engine canvas : uid)
    (rowCount columnsPerRow : Z) (originX originZ : number) :
  wf w = true ->
  let s1 := next_uid w in
  let w1 := snd (createScene engine canvas w) in
  let s2 := next_uid w1 in
  let w2 := snd (createScene engine canvas w1) in
  let g1 := 3 + s1 in
  let g2 := 3 + s2 in
  let w3 := snd (createGround rowCount columnsPerRow originX originZ s1 w2) in
  shadowGenerator w1 = Some g1
  /\ shadowGenerator w2 = Some g2
  /\ g1 <> g2
  /\ fst (createGround rowCount columnsPerRow originX originZ s1 w2) = Normal tt
  /\ List.length (created_meshes w2 w3) = Z.to_nat rowCount * Z.to_nat columnsPerRow
  /\ (forall m, In m (created_meshes w2 w3) -> mesh_scene m = s1)
  /\ casters g2 w3 = map mesh_uid (created_meshes w2 w3)
  /\ casters g1 w3 = [].
Proof.
  intros Hwf s1 w1 s2 w2 g1 g2 w3. subst w3 g2 g1 w2 s2 w1 s1.
  rewrite (createScene_world w engine canvas Hwf). cbn [snd].
  pose proof (wf_scene_world w engine canvas Hwf) as Hwf1.
  rewrite (createScene_world _ engine canvas Hwf1). cbn [snd].
  pose proof (wf_scene_world _ engine canvas Hwf1) as Hwf2.
  set (w1 := scene_world engine canvas w) in *.
  set (w2 := scene_world engine canvas w1) in *.
  assert (Hn1 : next_uid w1 = 10 + next_uid w) by (destruct w; reflexivity).
  assert (Hg1 : shadowGenerator w1 = Some (3 + next_uid w)) by (destruct w; reflexivity).
  assert (Hg2 : shadowGenerator w2 = Some (3 + next_uid w1))
    by (subst w2; destruct w1; reflexivity).
  destruct (createGround_defined w2 (3 + next_uid w1) rowCount columnsPerRow
              originX originZ (next_uid w) Hg2 Hwf2)
    as (w3 & E & (Hm & _ & _ & _ & _ & Hc & _)).
  pose proof (preserves_createGround _ other_casters_refl other_casters_trans
                rowCount columnsPerRow originX originZ (next_uid w)
                (fun x z h => createGroundObject_other_casters x z h (next_uid w))
                (fun w => ltac:(destruct w; split;
                                [reflexivity|intros g' _; reflexivity])) w2) as [_ Ho].
  rewrite E in *. cbn [fst snd] in *.
  rewrite (created_meshes_app _ _ _ Hm).
  split; [exact Hg1|]. split; [exact Hg2|]. split; [lia|]. split; [reflexivity|].
  split; [apply grid_columns_length|]. split.
  { intros m Hin.
    pose proof (grid_columns_scene (Z.to_nat rowCount) 0%Z (Z.to_nat columnsPerRow)
                  (next_uid w2) (random_draws w2) (random_source w2) (next_uid w)
                  originX originZ) as HF.
    rewrite Forall_forall in HF. now apply HF. }
  assert (Hc2 : casters (3 + next_uid w1) w2 = []).
  { subst w2. unfold casters, find_shadowGenerator, scene_world.
    pose proof Hwf1 as H. unfold wf in H. cbv zeta in H. split_andb.
    destruct w1. fields.
    rewrite (find_fresh_app sg_uid next_uid0).
    - cbn [find scene_shadowGenerator sg_uid]. now rewrite Nat.eqb_refl.
    - eapply forallb_weaken; [|eassumption]. intros o Ho'. cbv beta in Ho'.
      now split_andb.
    - lia. }
  assert (Hc1 : casters (3 + next_uid w) w2 = []).
  { subst w2. unfold casters, find_shadowGenerator.
    assert (Hs : shadowGenerators (scene_world engine canvas w1)
                 = shadowGenerators w1 ++ [scene_shadowGenerator (next_uid w1)])
      by (destruct w1; reflexivity).
    rewrite Hs. subst w1. unfold scene_world at 1.
    pose proof Hwf as H. unfold wf in H. cbv zeta in H. split_andb.
    destruct w. fields.
    rewrite <- app_assoc. rewrite (find_fresh_app sg_uid next_uid0).
    - cbn [app find scene_shadowGenerator sg_uid]. now rewrite Nat.eqb_refl.
    - eapply forallb_weaken; [|eassumption]. intros o Ho'. cbv beta in Ho'.
      now split_andb.
    - lia. }
  split.
  - now rewrite Hc, Hc2.
  - rewrite Ho; [exact Hc1|]. rewrite Hg2. intros H. injection H as H. lia.
Qed.

Lemma columns_register_with_latest_generator_witness :
  let w := empty_world (fun _ => 0.25%float) in
  let s1 := next_uid w in
  let w1 := snd (createScene 0 7 w) in
  let s2 := next_uid w1 in
  let w2 := snd (createScene 0 7 w1) in
  let g1 := 3 + s1 in
  let g2 := 3 + s2 in
  let w3 := snd (createGround 2 3 0 0 s1 w2) in
  shadowGenerator w1 = Some g1
  /\ shadowGenerator w2 = Some g2
  /\ g1 <> g2
  /\ fst (createGround 2 3 0 0 s1 w2) = Normal tt
  /\ List.length (created_meshes w2 w3) = Z.to_nat 2 * Z.to_nat 3
  /\ (forall m, In m (created_meshes w2 w3) -> mesh_scene m = s1)
  /\ casters g2 w3 = map mesh_uid (created_meshes w2 w3)
  /\ casters g1 w3 = [].
Proof.
  apply (columns_register_with_latest_generator (empty_world (fun _ => 0.25%float)) 0 7
           2 3 0 0).
  reflexivity.
Defined.

(** ** The order of [Init] *)

(** [Init] creates the engine on the canvas, with antialiasing, a preserved
    drawing buffer and a stencil buffer, then the whole scene, bound to that
    engine; only then does it start the render loop, and it adds the resize
    listener last.  So the camera is attached and the scene is complete
    before the first frame can be rendered. *)
Theorem Init_starts_loop_after_assembly (w : World) (canvas : uid) :
  wf w = true ->
  let e := next_uid w in
  let s := 1 + e in
  let w1 := snd (Init canvas w) in
  fst (Init canvas w) = Normal tt
  /\ engines w1 = engines w ++ [mkEngine e canvas true true true]
  /\ scenes w1 = scenes w ++ [mkScene s e]
  /\ new_calls w w1
     = [NewEngine e canvas; NewScene s e;
        NewArcRotateCamera (1 + s) s; CameraSetTarget (1 + s);
        CameraAttachControl (1 + s) canvas;
        NewDirectionalLight (2 + s) s;
        NewShadowGenerator (3 + s) 1024 (2 + s);
        NewStandardMaterial (4 + s) s; NewTexture (5 + s) s;
        CreateGroundFromHeightMap (6 + s) s;
        CreateBox (7 + s) s; NewStandardMaterial (8 + s) s; NewCubeTexture (9 + s) s;
        RunRenderLoop e; AddResizeListener].
Proof.
  intros Hwf e s w1. subst w1 s e. rewrite (Init_world w canvas Hwf). cbn [fst snd].
  split; [reflexivity|]. split; [destruct w; reflexivity|].
  split; [destruct w; reflexivity|].
  apply new_calls_app. destruct w. unfold init_world, scene_world, engine_world. run.
  rewrite <- !app_assoc. reflexivity.
Qed.

Lemma Init_starts_loop_after_assembly_witness :
  let w := empty_world (fun _ => 0.25%float) in
  let e := next_uid w in
  let s := 1 + e in
  let w1 := snd (Init 7 w) in
  fst (Init 7 w) = Normal tt
  /\ engines w1 = engines w ++ [mkEngine e 7 true true true]
  /\ scenes w1 = scenes w ++ [mkScene s e]
  /\ new_calls w w1
     = [NewEngine e 7; NewScene s e;
        NewArcRotateCamera (1 + s) s; CameraSetTarget (1 + s);
        CameraAttachControl (1 + s) 7;
        NewDirectionalLight (2 + s) s;
        NewShadowGenerator (3 + s) 1024 (2 + s);
        NewStandardMaterial (4 + s) s; NewTexture (5 + s) s;
        CreateGroundFromHeightMap (6 + s) s;
        CreateBox (7 + s) s; NewStandardMaterial (8 + s) s; NewCubeTexture (9 + s) s;
        RunRenderLoop e; AddResizeListener].
Proof.
  apply (Init_starts_loop_after_assembly (empty_world (fun _ => 0.25%float)) 7).
  reflexivity.
Defined.

(** ** The mounted hook *)




(** ** Earlier objects *)

(** [createScene] writes only to the objects it creates itself: every camera,
    light, shadow generator (with its casters), mesh, material and texture
    that existed before is still there afterwards, unchanged and in the same
    place, and the engines are as before.  Of what existed, only the closure
    variable [shadowGenerator] is overwritten. *)
Theorem createScene_touches_no_existing_object (w : World) (engine canvas : uid) :
  wf w = true ->
  let w' := snd (createScene engine canvas w) in
  engines w' = engines w
  /\ firstn (List.length (scenes w)) (scenes w') = scenes w
  /\ firstn (List.length (cameras w)) (cameras w') = cameras w
  /\ firstn (List.length (lights w)) (lights w') = lights w
  /\ firstn (List.length (shadowGenerators w)) (shadowGenerators w') = shadowGenerators w
  /\ firstn (List.length (meshes w)) (meshes w') = meshes w
  /\ firstn (List.length (materials w)) (materials w') = materials w
  /\ firstn (List.length (textures w)) (textures w') = textures w
  /\ (forall g, find_shadowGenerator g w <> None -> casters g w' = casters g w)
  /\ shadowGenerator w' = Some (3 + next_uid w).
Proof.
  intros Hwf w'. subst w'. rewrite (createScene_world w engine canvas Hwf). cbn [snd].
  assert (Hpre : forall A (l l' : list A), firstn (List.length l) (l ++ l') = l).
  { intros A l l'. rewrite firstn_app, Nat.sub_diag, firstn_all. cbn [firstn].
    apply app_nil_r. }
  destruct w as [n es ss cs ls gs ms mats ts v rs rd rl rz tr].
  unfold scene_world. fields.
  repeat (split; [first [reflexivity | apply Hpre]|]).
  split; [|reflexivity].
  intros g Hg. unfold casters, find_shadowGenerator in *. fields.
  destruct (find (fun o => Nat.eqb (sg_uid o) g) gs) as [o|] eqn:E; [|congruence].
  assert (Hf : forall l', find (fun o => Nat.eqb (sg_uid o) g) (gs ++ l') = Some o).
  { intros l'. clear - E. induction gs as [|a gs IH]; [discriminate|].
    cbn [app find] in *. destruct (Nat.eqb (sg_uid a) g); [exact E|now apply IH]. }
  now rewrite Hf.
Qed.

Lemma createScene_touches_no_existing_object_witness :
  let w := demo_world in
  let w' := snd (createScene 0 7 w) in
  engines w' = engines w
  /\ firstn (List.length (scenes w)) (scenes w') = scenes w
  /\ firstn (List.length (cameras w)) (cameras w') = cameras w
  /\ firstn (List.length (lights w)) (lights w') = lights w
  /\ firstn (List.length (shadowGenerators w)) (shadowGenerators w') = shadowGenerators w
  /\ firstn (List.length (meshes w)) (meshes w') = meshes w
  /\ firstn (List.length (materials w)) (materials w') = materials w
  /\ firstn (List.length (textures w)) (textures w') = textures w
  /\ (forall g, find_shadowGenerator g w <> None -> casters g w' = casters g w)
  /\ shadowGenerator w' = Some (3 + next_uid w).
Proof.
  apply (createScene_touches_no_existing_object demo_world 0 7). reflexivity.
Defined.
